(** * ActionSpotDataset: clip sampling and label construction

    A shallow embedding of [src/datasets/image_datasets.py]: the
    constructor's parameter checks and event index, the two sampling
    strategies, the label vector with temporal dilation, the
    [contains_event] flag and the retry loop of [__getitem__].

    Python [int] is [Z]; the label array is a [list Z] holding
    [np.int64] values, with numpy's overflow behaviour written out; the
    class dictionary is a [gmap string Z]; [float] values (the event
    sample rate, the draws of [random.random]) are rationals.  Python
    exceptions are values of [PyExc] carried by [Result]; the random
    module and the frame reader are the operations of a [Runtime]. *)

From Stdlib Require Import ZArith QArith Lia Ascii.
From stdpp Require Import base option list gmap strings.

Local Open Scope Z_scope.

(** ** Python exceptions *)

Inductive PyExc : Type :=
| AssertionError (msg : string)
| KeyError (key : string)
| IndexError
| ValueError
| OverflowError
| ZeroDivisionError
| AttributeError (name : string).

(** The name of the class of an exception object. *)
Definition exc_class (e : PyExc) : string :=
  match e with
  | AssertionError _ => "AssertionError"
  | KeyError _ => "KeyError"
  | IndexError => "IndexError"
  | ValueError => "ValueError"
  | OverflowError => "OverflowError"
  | ZeroDivisionError => "ZeroDivisionError"
  | AttributeError _ => "AttributeError"
  end.

(** The method resolution order of the built-in exception classes the
    sampler can raise, as the interpreter defines it. *)
Definition mro (e : PyExc) : list string :=
  match e with
  | AssertionError _ => ["AssertionError"; "Exception"; "BaseException"; "object"]
  | KeyError _ => ["KeyError"; "LookupError"; "Exception"; "BaseException"; "object"]
  | IndexError => ["IndexError"; "LookupError"; "Exception"; "BaseException"; "object"]
  | ValueError => ["ValueError"; "Exception"; "BaseException"; "object"]
  | OverflowError =>
      ["OverflowError"; "ArithmeticError"; "Exception"; "BaseException"; "object"]
  | ZeroDivisionError =>
      ["ZeroDivisionError"; "ArithmeticError"; "Exception"; "BaseException"; "object"]
  | AttributeError _ => ["AttributeError"; "Exception"; "BaseException"; "object"]
  end.

Definition isinstance (e : PyExc) (cls : string) : bool :=
  bool_decide (cls ∈ mro e).

(** ** Results of fallible code *)

Inductive Result (A : Type) : Type :=
| Ok (a : A)
| Raise (e : PyExc).
Arguments Ok {A} a.
Arguments Raise {A} e.

#[global] Instance Result_ret : MRet Result := fun A a => Ok a.
#[global] Instance Result_bind : MBind Result := fun A B f m =>
  match m with
  | Ok a => f a
  | Raise e => Raise e
  end.

(** [assert cond, msg] *)
Definition py_assert (cond : bool) (msg : string) : Result unit :=
  if cond then Ok tt else Raise (AssertionError msg).

(** [a // b] on Python integers: floor division. *)
Definition py_floordiv (a b : Z) : Result Z :=
  if b =? 0 then Raise ZeroDivisionError else Ok (a / b).

(** [range(lo, hi)] *)
Definition py_range (lo hi : Z) : list Z := seqZ lo (hi - lo).

(** A left fold whose step can raise: the body of a [for] loop. *)
Fixpoint for_each {A B : Type} (body : B → A → Result B) (xs : list A) (s : B)
  : Result B :=
  match xs with
  | [] => Ok s
  | x :: xs' =>
      match body s x with
      | Ok s' => for_each body xs' s'
      | Raise e => Raise e
      end
  end.

(** ** numpy arrays of [np.int64] *)

Definition int64_min : Z := - 2 ^ 63.
Definition int64_max : Z := 2 ^ 63 - 1.

Definition fits_int64 (z : Z) : bool := (int64_min <=? z) && (z <=? int64_max).

(** Two's complement wrap-around of 64-bit addition. *)
Definition wrap_int64 (z : Z) : Z := (z + 2 ^ 63) mod 2 ^ 64 - 2 ^ 63.

(** [np.zeros(n, np.int64)] *)
Definition np_zeros (n : Z) : Result (list Z) :=
  if n <? 0 then Raise ValueError else Ok (replicate (Z.to_nat n) 0).

(** [a[i] = v]: a negative index counts from the end, an index out of
    range raises, and so does a Python integer that does not fit. *)
Definition np_setitem (a : list Z) (i v : Z) : Result (list Z) :=
  let n := Z.of_nat (length a) in
  let j := if i <? 0 then i + n else i in
  if (j <? 0) || (n <=? j) then Raise IndexError
  else if fits_int64 v then Ok (<[Z.to_nat j := v]> a)
  else Raise OverflowError.

(** [a.sum()]: the accumulator is an [np.int64] and wraps silently. *)
Definition np_sum (a : list Z) : Z :=
  fold_left (fun acc x => wrap_int64 (acc + x)) a 0.

(** ** Annotations *)

(** Modelled from the spec: the [Annotation] type of [utils.annotation]
    is not among the sources; section 3 of the specification gives its
    fields, and the code reads exactly these keys. *)
Record Event : Type := { frame : Z; label : string }.

Record Annotation : Type := {
  video : string;
  num_frames : Z;
  events : list Event
}.

(** ** The dataset object *)

Record ActionSpotDataset : Type := {
  classes_dict : gmap string Z;
  clip_labels : list Annotation;
  clip_indexes : gmap string nat;
  is_eval : bool;
  dilate_len : Z;
  event_sample_rate : Q;
  mixup : bool;
  clip_len : Z;
  frame_sample_stride : Z;
  dataset_len : Z;
  n_pad_frames : Z;
  (** set only when [event_sample_rate > 0] *)
  flat_labels : option (list (nat * Z));
  (** [None] stands for the array of nan and inf that dividing by a
      zero total gives *)
  uniform_sample_weight : option (list Q)
}.

(** [enumerate(xs)] *)
Definition enumerate {A : Type} (xs : list A) : list (nat * A) :=
  zip (seq 0 (length xs)) xs.

(** Lines 92-96: the two nested loops that append to [flat_labels]. *)
Definition flat_labels_of_video (i : nat) (x : Annotation)
    (acc : list (nat * Z)) : list (nat * Z) :=
  fold_left
    (fun acc event =>
       if frame event <? num_frames x then acc ++ [(i, frame event)] else acc)
    (events x) acc.

Definition build_flat_labels (labels : list Annotation) : list (nat * Z) :=
  fold_left (fun acc '(i, x) => flat_labels_of_video i x acc) (enumerate labels) [].

(** Line 66-67: the dict comprehension; a later video of the same name
    replaces an earlier one. *)
Definition build_clip_indexes (labels : list Annotation) : gmap string nat :=
  fold_left (fun m '(i, x) => <[video x := i]> m) (enumerate labels) ∅.

Definition sum_Z (l : list Z) : Z := fold_left Z.add l 0.

(** Lines 99-100: [np.array(num_frames) / np.sum(num_frames)].  The
    frame counts make an [np.int64] array, so their sum wraps like any
    64-bit sum; the quotients, [float64] in the code, are kept as exact
    rationals. *)
Definition build_uniform_sample_weight (labels : list Annotation)
  : option (list Q) :=
  let nf := num_frames <$> labels in
  let total := np_sum nf in
  if total =? 0 then
    match labels with [] => Some [] | _ => None end
  else Some ((fun n => inject_Z n / inject_Z total)%Q <$> nf).

Definition Qgtb (x y : Q) : bool := negb (Qle_bool x y).

(** [ActionSpotDataset.__init__].  [labels] is what [load_json] returned
    for [label_file]; [clip_dir], [modality], [crop_dim] and
    [same_crop_transform] only configure the frame reader.  The assertion
    messages are kept without the formatted value. *)
Definition init (classes : gmap string Z) (labels : list Annotation)
    (clip_len' dataset_len' : Z) (is_eval' : bool)
    (frame_sample_stride' dilate_len' : Z) (mixup' : bool)
    (n_pad_frames' : Z) (event_sample_rate' : Q) : Result ActionSpotDataset :=
  _ ← py_assert (clip_len' >? 0) "clip len should be greater than 0";
  _ ← py_assert (frame_sample_stride' >? 0)
        "frame_sample_stride should be greater than 0";
  _ ← py_assert (dataset_len' >? 0) "dataset_len should be greater than 0";
  _ ← py_assert (n_pad_frames' >=? 0)
        "n_pad_frames should be greater equal than 0";
  mret {|
    classes_dict := classes;
    clip_labels := labels;
    clip_indexes := build_clip_indexes labels;
    is_eval := is_eval';
    dilate_len := dilate_len';
    event_sample_rate := event_sample_rate';
    mixup := mixup';
    clip_len := clip_len';
    frame_sample_stride := frame_sample_stride';
    dataset_len := dataset_len';
    n_pad_frames := n_pad_frames';
    flat_labels :=
      if Qgtb event_sample_rate' 0 then Some (build_flat_labels labels) else None;
    uniform_sample_weight := build_uniform_sample_weight labels
  |}.

(** [__len__] *)
Definition len (D : ActionSpotDataset) : Z := dataset_len D.

(** ** Class names *)

(** [str.isspace] on the code points below 256. *)
Definition isspace (c : ascii) : bool :=
  let n := N_of_ascii c in
  ((9 <=? n) && (n <=? 13) || (28 <=? n) && (n <=? 32)
   || (n =? 133) || (n =? 160))%N.

Fixpoint lstrip (s : string) : string :=
  match s with
  | String c s' => if isspace c then lstrip s' else s
  | EmptyString => EmptyString
  end.

(** [str.strip()] *)
Definition py_strip (s : string) : string :=
  String.rev (lstrip (String.rev (lstrip s))).

(** [get_classes], from the lines that [readlines] returned.  The dict
    comprehension inserts in line order, so a later line replaces an
    earlier one that strips to the same name.  [strip] is [str.strip]. *)
Definition get_classes (strip : string → string) (classes : list string)
  : gmap string Z :=
  fold_left (fun m '(i, c) => <[strip c := Z.of_nat i]> m) (enumerate classes) ∅.

(** ** The runtime: the [random] module and the frame reader

    [W] is everything outside the dataset object that a call can change:
    the state of the global random generator and whatever the frame
    reader keeps.  The reader shares that state, since it may draw from
    the same generator when [random_sample] is set. *)

Class Runtime (W Frames : Type) : Type := {
  (** [random.random()] *)
  random : W → Q * W;
  (** [random.randint(a, b)] for [a <= b] *)
  randint : Z → Z → W → Z * W;
  (** the position [random.choices] picks in a population of [n]
      elements, with the weights when there are any *)
  choices_index : nat → option (list Q) → W → nat * W;
  (** [frame_reader.load_frames(clip_name, start_frame, end_frame,
      pad_end_frame, frame_sample_stride, random_sample)]; [None] is the
      [None] of Python *)
  load_frames : string → Z → Z → bool → Z → bool → W → option Frames * W;
  random_range : ∀ w, (0 <= (random w).1)%Q ∧ ((random w).1 < 1)%Q;
  randint_range : ∀ a b w, a ≤ b → a ≤ (randint a b w).1 ≤ b;
  choices_index_range :
    ∀ n ws w, (0 < n)%nat → ((choices_index n ws w).1 < n)%nat
}.

Section Sampler.
Context {W Frames : Type} `{!Runtime W Frames}.

(** The state threaded through the sampler, with a count of the calls
    made to the frame reader. *)
Record St : Type := { world : W; reader_calls : nat }.

Definition M (A : Type) : Type := St → Result A * St.

#[local] Instance M_ret : MRet M := fun A a s => (Ok a, s).
#[local] Instance M_bind : MBind M := fun A B f m s =>
  match m s with
  | (Ok a, s') => f a s'
  | (Raise e, s') => (Raise e, s')
  end.

Definition raise {A : Type} (e : PyExc) : M A := fun s => (Raise e, s).

Definition lift {A : Type} (r : Result A) : M A := fun s => (r, s).

(** Run a generator operation on the world. *)
Definition draw {A : Type} (op : W → A * W) : M A := fun s =>
  let '(a, w) := op (world s) in
  (Ok a, {| world := w; reader_calls := reader_calls s |}).

(** [random.randint(a, b)]: an empty range is a [ValueError]. *)
Definition py_randint (a b : Z) : M Z :=
  if b <? a then raise ValueError else draw (randint a b).

(** [random.choices(population)[0]] *)
Definition choices {A : Type} (population : list A) : M A :=
  i ← draw (choices_index (length population) None);
  match population !! i with
  | Some x => mret x
  | None => raise IndexError
  end.

(** [random.choices(population, weights=weights)[0]] *)
Definition choices_weighted {A : Type} (population : list A)
    (weights : option (list Q)) : M A :=
  match weights with
  | None => raise ValueError
  | Some ws =>
      if negb (length ws =? length population)%nat then raise ValueError
      else
        match population with
        | [] => raise IndexError
        | _ =>
            if Qle_bool (fold_left Qplus ws 0%Q) 0 then raise ValueError
            else
              i ← draw (choices_index (length population) (Some ws));
              match population !! i with
              | Some x => mret x
              | None => raise IndexError
              end
        end
  end.

(** [ActionSpotDataset.sample_clip] *)
Definition sample_clip (D : ActionSpotDataset) : M (Annotation * Z) :=
  clip_label ← choices_weighted (clip_labels D) (uniform_sample_weight D);
  let clip_frames := num_frames clip_label in
  r ← py_randint 0
        (Z.max 0 (clip_frames - 1
                  + (2 * n_pad_frames D - clip_len D) * frame_sample_stride D));
  mret (clip_label, - n_pad_frames D * frame_sample_stride D + r).

(** Lines 137-143 of [sample_event]. *)
Definition lower_bound (D : ActionSpotDataset) (frame_idx : Z) : Z :=
  Z.max (- n_pad_frames D * frame_sample_stride D)
        (frame_idx - clip_len D * frame_sample_stride D + 1).

Definition upper_bound (D : ActionSpotDataset) (video_len frame_idx : Z) : Z :=
  Z.min (video_len - 1 + (n_pad_frames D - clip_len D) * frame_sample_stride D)
        frame_idx.

(** Lines 145-146: the start frame, before the assertions. *)
Definition sample_event_start (D : ActionSpotDataset) (video_len frame_idx : Z)
  : M Z :=
  if upper_bound D video_len frame_idx >? lower_bound D frame_idx
  then py_randint (lower_bound D frame_idx) (upper_bound D video_len frame_idx)
  else mret (lower_bound D frame_idx).

(** [ActionSpotDataset.sample_event] *)
Definition sample_event (D : ActionSpotDataset) : M (Annotation * Z) :=
  match flat_labels D with
  | None => raise (AttributeError "flat_labels")
  | Some fl =>
      '(video_idx, frame_idx) ← choices fl;
      match clip_labels D !! video_idx with
      | None => raise IndexError
      | Some clip_label =>
          let video_len := num_frames clip_label in
          start_frame ← sample_event_start D video_len frame_idx;
          _ ← lift (py_assert (start_frame <=? frame_idx) "");
          _ ← lift (py_assert (start_frame + clip_len D >? frame_idx) "");
          mret (clip_label, start_frame)
      end
  end.

(** [ActionSpotDataset.get_sample]: [and] evaluates its right operand,
    and so draws, only when the left one holds. *)
Definition get_sample (D : ActionSpotDataset) : M (Annotation * Z) :=
  if Qgtb (event_sample_rate D) 0 then
    r ← draw random;
    if Qgtb r (event_sample_rate D) then sample_event D else sample_clip D
  else sample_clip D.

(** Lines 167-175: the body of the loop over the events. *)
Definition write_event (D : ActionSpotDataset) (start_frame : Z)
    (labels : list Z) (event : Event) : Result (list Z) :=
  let event_frame := frame event in
  label_index ← py_floordiv (event_frame - start_frame) (frame_sample_stride D);
  if (label_index >=? - dilate_len D)
     && (label_index <? clip_len D + dilate_len D)
  then
    match classes_dict D !! label event with
    | None => Raise (KeyError (label event))
    | Some label =>
        for_each (fun labels i => np_setitem labels i label)
          (py_range (Z.max 0 (label_index - dilate_len D))
                    (Z.min (clip_len D) (label_index + dilate_len D + 1)))
          labels
    end
  else Ok labels.

(** Lines 165-175: the label vector of a clip. *)
Definition make_labels (D : ActionSpotDataset) (clip_label : Annotation)
    (start_frame : Z) : Result (list Z) :=
  labels ← np_zeros (clip_len D);
  for_each (write_event D start_frame) (events clip_label) labels.

(** Line 184: [int(labels.sum() > 0)] *)
Definition contains_event_of (labels : list Z) : Z :=
  if np_sum labels >? 0 then 1 else 0.

Record Example : Type := {
  example_frame : option Frames;
  example_label : list Z;
  contains_event : Z
}.

Definition call_load_frames (clip_name : string) (start_frame end_frame : Z)
    (pad_end_frame : bool) (stride : Z) (random_sample : bool)
  : M (option Frames) := fun s =>
  let '(frames, w) :=
    load_frames clip_name start_frame end_frame pad_end_frame stride
      random_sample (world s) in
  (Ok frames, {| world := w; reader_calls := S (reader_calls s) |}).

(** [ActionSpotDataset.get_example] *)
Definition get_example (D : ActionSpotDataset) : M Example :=
  '(clip_label, start_frame) ← get_sample D;
  labels ← lift (make_labels D clip_label start_frame);
  frames ← call_load_frames (video clip_label) start_frame
              (start_frame + clip_len D * frame_sample_stride D) true
              (frame_sample_stride D) (negb (is_eval D));
  mret {| example_frame := frames;
          example_label := labels;
          contains_event := contains_event_of labels |}.

(** The [while example["frame"] is None] loop.  Python puts no bound on
    it; [fuel] bounds the number of further attempts, and [None] means
    that all of them came back without frames. *)
Fixpoint retry (fuel : nat) (D : ActionSpotDataset) (example : Example)
    (s : St) : option (Result Example * St) :=
  match example_frame example with
  | Some _ => Some (Ok example, s)
  | None =>
      match fuel with
      | O => None
      | S fuel' =>
          match get_example D s with
          | (Ok example', s') => retry fuel' D example' s'
          | (Raise e, s') => Some (Raise e, s')
          end
      end
  end.

(** [ActionSpotDataset.__getitem__] *)
Definition getitem {I : Type} (fuel : nat) (D : ActionSpotDataset) (unused : I)
    (s : St) : option (Result Example * St) :=
  match get_example D s with
  | (Ok example, s') => retry fuel D example s'
  | (Raise e, s') => Some (Raise e, s')
  end.

(** A computation that does not call the frame reader. *)
Definition keeps_calls {A : Type} (m : M A) : Prop :=
  ∀ s r s1, m s = (r, s1) → reader_calls s1 = reader_calls s.

(** The state in which the [k]-th further call of [get_example]
    starts. *)
Fixpoint after_attempts (D : ActionSpotDataset) (k : nat) (s : St) : St :=
  match k with
  | O => s
  | S k' => after_attempts D k' (get_example D s).2
  end.

End Sampler.

(** ** A scripted runtime

    A generator that reads its draws off a tape and a frame reader that
    fails a given number of times before it serves frames, used to run
    the sampler on concrete inputs.  The frames it serves are the number
    of the call that produced them. *)

Module Stub.

Record World : Type := {
  tape : list N;
  failures_left : nat;
  served : nat
}.

Definition next (w : World) : N * World :=
  match tape w with
  | [] => (0%N, w)
  | x :: t =>
      (x, {| tape := t; failures_left := failures_left w; served := served w |})
  end.

Definition stub_random (w : World) : Q * World :=
  let '(x, w') := next w in
  (Z.of_N (x mod 2 ^ 53) # 2 ^ 53, w').

Definition stub_randint (a b : Z) (w : World) : Z * World :=
  let '(x, w') := next w in
  (a + Z.of_N x mod (b - a + 1), w').

Definition stub_choices_index (n : nat) (ws : option (list Q)) (w : World)
  : nat * World :=
  let '(x, w') := next w in
  (N.to_nat x mod n, w')%nat.

Definition stub_load_frames (clip_name : string) (start_frame end_frame : Z)
    (pad_end_frame : bool) (stride : Z) (random_sample : bool) (w : World)
  : option nat * World :=
  match failures_left w with
  | O =>
      (Some (S (served w)),
       {| tape := tape w; failures_left := O; served := S (served w) |})
  | S k =>
      (None,
       {| tape := tape w; failures_left := k; served := S (served w) |})
  end.

Lemma stub_random_range w :
  (0 <= (stub_random w).1)%Q ∧ ((stub_random w).1 < 1)%Q.
Proof.
  unfold stub_random. destruct (next w) as [x w']. cbn [fst].
  assert (Hb : (x mod 2 ^ 53 < 2 ^ 53)%N) by (apply N.mod_upper_bound; discriminate).
  set (m := (x mod 2 ^ 53)%N) in *.
  unfold Qle, Qlt. cbn [Qnum Qden].
  change (Z.pos (2 ^ 53)) with (Z.of_N (2 ^ 53)).
  set (p := (2 ^ 53)%N) in *. lia.
Qed.

Lemma stub_randint_range a b w : a ≤ b → a ≤ (stub_randint a b w).1 ≤ b.
Proof.
  intros Hab. unfold stub_randint. destruct (next w) as [x w']. cbn [fst].
  pose proof (Z.mod_pos_bound (Z.of_N x) (b - a + 1)). lia.
Qed.

Lemma stub_choices_index_range n ws w :
  (0 < n)%nat → ((stub_choices_index n ws w).1 < n)%nat.
Proof.
  intros Hn. unfold stub_choices_index. destruct (next w) as [x w']. cbn [fst].
  apply Nat.mod_upper_bound. lia.
Qed.

#[global] Instance stub_runtime : Runtime World nat := {|
  random := stub_random;
  randint := stub_randint;
  choices_index := stub_choices_index;
  load_frames := stub_load_frames;
  random_range := stub_random_range;
  randint_range := stub_randint_range;
  choices_index_range := stub_choices_index_range
|}.

Definition start (draws : list N) (failures : nat) : St (W := World) :=
  {| world := {| tape := draws; failures_left := failures; served := 0 |};
     reader_calls := 0 |}.

End Stub.

(** ** Reference definitions

    What the specification says the code computes, written from its
    words, to compare with the definitions above. *)

(** The event index as a comprehension: for each video in order, the
    frames of its events that are below the video's frame count. *)
Definition events_below_num_frames (labels : list Annotation) : list (nat * Z) :=
  '(i, x) ← enumerate labels;
  (fun event => (i, frame event))
    <$> filter (fun event => frame event < num_frames x) (events x).

(** The position of an event in the clip that starts at [start_frame]. *)
Definition label_index_of (D : ActionSpotDataset) (start_frame : Z)
    (event : Event) : Z :=
  (frame event - start_frame) / frame_sample_stride D.

(** The event is close enough to the clip to be written at all. *)
Definition in_window (D : ActionSpotDataset) (start_frame : Z) (event : Event)
  : Prop :=
  - dilate_len D ≤ label_index_of D start_frame event
  ∧ label_index_of D start_frame event < clip_len D + dilate_len D.

(** The event is written at position [i]. *)
Definition writes_to (D : ActionSpotDataset) (start_frame : Z) (event : Event)
    (i : Z) : Prop :=
  in_window D start_frame event
  ∧ Z.max 0 (label_index_of D start_frame event - dilate_len D) ≤ i
  ∧ i < Z.min (clip_len D) (label_index_of D start_frame event + dilate_len D + 1).

#[global] Instance in_window_dec D start_frame event :
  Decision (in_window D start_frame event).
Proof. unfold in_window. apply _. Defined.

#[global] Instance writes_to_dec D start_frame event i :
  Decision (writes_to D start_frame event i).
Proof. unfold writes_to. apply _. Defined.

(** Every event that is written has a class, and one that fits the array. *)
Definition known_in_window (D : ActionSpotDataset) (start_frame : Z)
    (evs : list Event) : Prop :=
  ∀ event, event ∈ evs → in_window D start_frame event →
    ∃ c, classes_dict D !! label event = Some c ∧ fits_int64 c = true.

(** An entry of a label vector: background, or the 64-bit class of one
    of the events that are written. *)
Definition entry_ok (D : ActionSpotDataset) (start_frame : Z)
    (evs : list Event) (u : Z) : Prop :=
  u = 0
  ∨ (fits_int64 u = true
     ∧ ∃ event, event ∈ evs ∧ classes_dict D !! label event = Some u
                ∧ in_window D start_frame event).

(** Last write wins: position [i] holds the class of the last event, in
    annotation order, that is written there, and background otherwise. *)
Definition expected_label (D : ActionSpotDataset) (start_frame : Z)
    (evs : list Event) (i : Z) : Z :=
  match last (filter (fun event => writes_to D start_frame event i) evs) with
  | Some event => default 0 (classes_dict D !! label event)
  | None => 0
  end.

(** ** Concrete inputs *)

Definition nl : string := String (ascii_of_nat 10) "".

(** The lines of a class file, with line ends and stray blanks, and one
    name twice. *)
Definition class_lines : list string :=
  ["background" +:+ nl; " pass " +:+ nl; "shot" +:+ nl; "pass" +:+ nl].

Definition ev (f : Z) (l : string) : Event := {| frame := f; label := l |}.

(** A ten-frame video with one event before its first frame. *)
Definition video_early : Annotation :=
  {| video := "early"; num_frames := 10; events := [ev (-1) "a"] |}.

(** Two classes, and a twenty-frame video whose two events are close
    enough for their dilated labels to overlap. *)
Definition classes_ab : gmap string Z := <["a" := 1]> (<["b" := 2]> ∅).

Definition video_pair : Annotation :=
  {| video := "pair"; num_frames := 20; events := [ev 4 "a"; ev 6 "b"] |}.

(** A dataset object with the given class map, videos, clip length,
    stride, dilation, padding and event sample rate. *)
Definition dataset (classes : gmap string Z) (labels : list Annotation)
    (cl st di np : Z) (rate : Q) : ActionSpotDataset :=
  {| classes_dict := classes;
     clip_labels := labels;
     clip_indexes := build_clip_indexes labels;
     is_eval := true;
     dilate_len := di;
     event_sample_rate := rate;
     mixup := false;
     clip_len := cl;
     frame_sample_stride := st;
     dataset_len := 5;
     n_pad_frames := np;
     flat_labels :=
       if Qgtb rate 0 then Some (build_flat_labels labels) else None;
     uniform_sample_weight := build_uniform_sample_weight labels |}.

(** A hundred-frame video with one event, sampled with stride two. *)
Definition video_long : Annotation :=
  {| video := "long"; num_frames := 100; events := [ev 10 "a"] |}.

Definition dataset_stride2 : ActionSpotDataset :=
  dataset classes_ab [video_long] 2 2 0 0 (1 # 2).

(** Its class map without ["b"]. *)
Definition dataset_no_b : ActionSpotDataset :=
  dataset (<["a" := 1]> ∅) [video_pair] 8 1 2 0 (-1).

Definition dataset_pair : ActionSpotDataset :=
  dataset classes_ab [video_pair] 8 1 2 0 (-1).

(** A video whose only event has a label outside the class map, far
    from the clips that start near frame 0. *)
Definition video_late : Annotation :=
  {| video := "late"; num_frames := 100; events := [ev 90 "zzz"] |}.

Definition dataset_late : ActionSpotDataset :=
  dataset classes_ab [video_late] 4 1 0 0 (-1).

(** A video without frames, and one whose events all lie at or after
    its last frame. *)
Definition video_empty : Annotation :=
  {| video := "empty"; num_frames := 0; events := [] |}.

Definition video_beyond : Annotation :=
  {| video := "beyond"; num_frames := 10; events := [ev 10 "a"; ev 25 "b"] |}.

(** A twenty-frame video with a single event. *)
Definition video_single : Annotation :=
  {| video := "single"; num_frames := 20; events := [ev 5 "b"] |}.

(** A dataset whose class map comes from a class file. *)
Definition dataset_from_file : ActionSpotDataset :=
  dataset (get_classes py_strip class_lines)
    [{| video := "game"; num_frames := 20;
        events := [ev 4 "pass"; ev 6 "shot"] |}] 8 1 2 0 (-1).

(** ** Construction *)

Section Construction.
Variables (classes : gmap string Z) (labels : list Annotation).
Variables (cl dl : Z) (ie : bool) (st di : Z) (mx : bool) (np : Z) (rate : Q).

Lemma py_assert_ok c msg : py_assert c msg = Ok tt ↔ c = true.
Proof. unfold py_assert. destruct c; split; congruence. Qed.

Lemma init_valid :
  0 < cl → 0 < st → 0 < dl → 0 ≤ np →
  ∃ D, init classes labels cl dl ie st di mx np rate = Ok D
       ∧ clip_len D = cl ∧ frame_sample_stride D = st
       ∧ dataset_len D = dl ∧ n_pad_frames D = np
       ∧ clip_labels D = labels ∧ classes_dict D = classes
       ∧ dilate_len D = di ∧ event_sample_rate D = rate
       ∧ flat_labels D =
           (if Qgtb rate 0 then Some (build_flat_labels labels) else None).
Proof.
  intros Hcl Hst Hdl Hnp. unfold init.
  assert ((cl >? 0) = true) as -> by lia.
  assert ((st >? 0) = true) as -> by lia.
  assert ((dl >? 0) = true) as -> by lia.
  assert ((np >=? 0) = true) as -> by lia.
  cbn. eexists. split; [reflexivity|]. cbn. repeat split.
Qed.

Lemma init_invalid :
  cl ≤ 0 ∨ st ≤ 0 ∨ dl ≤ 0 ∨ np < 0 →
  ∃ msg, init classes labels cl dl ie st di mx np rate
         = Raise (AssertionError msg).
Proof.
  intros Hbad. unfold init.
  destruct (cl >? 0) eqn:Hcl; cbn; [|eauto].
  destruct (st >? 0) eqn:Hst; cbn; [|eauto].
  destruct (dl >? 0) eqn:Hdl; cbn; [|eauto].
  destruct (np >=? 0) eqn:Hnp; cbn; [|eauto].
  lia.
Qed.

Lemma init_fails_or_builds :
  (∃ msg, init classes labels cl dl ie st di mx np rate
          = Raise (AssertionError msg))
  ∨ (∃ D, init classes labels cl dl ie st di mx np rate = Ok D
          ∧ flat_labels D =
              (if Qgtb rate 0 then Some (build_flat_labels labels) else None)).
Proof.
  destruct (decide (0 < cl ∧ 0 < st ∧ 0 < dl ∧ 0 ≤ np)) as [Hv|Hv].
  - destruct Hv as (H1 & H2 & H3 & H4). right.
    destruct (init_valid H1 H2 H3 H4) as (D & HD & H). exists D. tauto.
  - left. apply init_invalid. lia.
Qed.

(** C4 (amended): construction fails, with the [AssertionError] of a
    failed [assert] (there is no [ConfigurationError] class), if and
    only if [clip_len <= 0] or [frame_sample_stride <= 0] or
    [dataset_len <= 0] or [n_pad_frames < 0]; with [clip_len > 0],
    [frame_sample_stride > 0], [dataset_len > 0] and
    [n_pad_frames >= 0] it succeeds and stores the four values
    unchanged. *)
Theorem init_fails_iff_invalid :
  ((∃ e, init classes labels cl dl ie st di mx np rate = Raise e)
   ↔ cl ≤ 0 ∨ st ≤ 0 ∨ dl ≤ 0 ∨ np < 0)
  ∧ (∀ e, init classes labels cl dl ie st di mx np rate = Raise e →
          exc_class e = "AssertionError")
  ∧ ((∃ D, init classes labels cl dl ie st di mx np rate = Ok D)
     ↔ 0 < cl ∧ 0 < st ∧ 0 < dl ∧ 0 ≤ np)
  ∧ (∀ D, init classes labels cl dl ie st di mx np rate = Ok D →
          clip_len D = cl ∧ frame_sample_stride D = st
          ∧ dataset_len D = dl ∧ n_pad_frames D = np).
Proof.
  destruct (decide (0 < cl ∧ 0 < st ∧ 0 < dl ∧ 0 ≤ np)) as [Hv|Hv].
  - destruct Hv as (H1 & H2 & H3 & H4).
    destruct (init_valid H1 H2 H3 H4) as (D & HD & Hc & Hs & Hd & Hn & _).
    rewrite HD. split; [|split; [|split]].
    + split; [intros [e He]; discriminate | lia].
    + intros e He. discriminate.
    + split; [tauto | eauto].
    + intros D' [= <-]. tauto.
  - assert (Hbad : cl ≤ 0 ∨ st ≤ 0 ∨ dl ≤ 0 ∨ np < 0) by lia.
    destruct (init_invalid Hbad) as [msg Hmsg]. rewrite Hmsg.
    split; [|split; [|split]].
    + split; [tauto | eauto].
    + intros e [= <-]. reflexivity.
    + split; [intros [D HD]; discriminate | tauto].
    + intros D HD. discriminate.
Qed.

End Construction.

(** The datasets used as concrete inputs are what the constructor
    returns. *)
Lemma init_dataset (classes : gmap string Z) (labels : list Annotation)
    (cl st di np : Z) (rate : Q) :
  0 < cl → 0 < st → 0 ≤ np →
  init classes labels cl 5 true st di false np rate
  = Ok (dataset classes labels cl st di np rate).
Proof.
  intros Hcl Hst Hnp. unfold init.
  assert ((cl >? 0) = true) as -> by lia.
  assert ((st >? 0) = true) as -> by lia.
  assert ((np >=? 0) = true) as -> by lia.
  reflexivity.
Qed.

(** C4, as stated, fails: with [clip_len = 0] the constructor raises an
    [AssertionError], which is not an instance of any
    [ConfigurationError]. *)
Lemma init_clip_len_zero_raises_AssertionError :
  init ∅ [] 0 5 true 1 0 false 0 (-1)
  = Raise (AssertionError "clip len should be greater than 0")
  ∧ isinstance (AssertionError "clip len should be greater than 0")
      "ConfigurationError" = false
  ∧ isinstance (AssertionError "clip len should be greater than 0")
      "AssertionError" = true.
Proof. repeat split; vm_compute; reflexivity. Qed.

(** ** The event index *)

Lemma enumerate_from_lookup {A : Type} (xs : list A) (k i : nat) (x : A) :
  (i, x) ∈ zip (seq k (length xs)) xs ↔ (k ≤ i)%nat ∧ xs !! (i - k)%nat = Some x.
Proof.
  rewrite elem_of_lookup_zip_with. split.
  - intros (j & a & b & [= -> ->] & Hj & Hb).
    apply lookup_seq in Hj as [-> Hlt].
    split; [lia|]. by replace (k + j - k)%nat with j by lia.
  - intros [Hle Hx]. exists (i - k)%nat, i, x. split; [done|]. split; [|done].
    apply lookup_seq. split; [lia|]. by apply lookup_lt_Some in Hx.
Qed.

Lemma elem_of_enumerate {A : Type} (xs : list A) (i : nat) (x : A) :
  (i, x) ∈ enumerate xs ↔ xs !! i = Some x.
Proof.
  unfold enumerate. rewrite enumerate_from_lookup.
  replace (i - 0)%nat with i by lia. split; [tauto|]. split; [lia|done].
Qed.

Lemma flat_labels_of_video_app (i : nat) (x : Annotation) (acc : list (nat * Z)) :
  flat_labels_of_video i x acc
  = acc ++ ((fun event => (i, frame event))
              <$> filter (fun event => frame event < num_frames x) (events x)).
Proof.
  unfold flat_labels_of_video. generalize (events x) as evs.
  intros evs. revert acc. induction evs as [|e evs IH]; intros acc; cbn [fold_left].
  - by rewrite app_nil_r.
  - rewrite IH, filter_cons. destruct (frame e <? num_frames x) eqn:Hlt.
    + rewrite decide_True by lia. by rewrite <- app_assoc.
    + by rewrite decide_False by lia.
Qed.

Lemma build_flat_labels_comprehension (labels : list Annotation) :
  build_flat_labels labels = events_below_num_frames labels.
Proof.
  unfold build_flat_labels, events_below_num_frames.
  generalize (enumerate labels) as l. intros l.
  rewrite <- (app_nil_l (l ≫= _)). generalize (@nil (nat * Z)) as acc.
  induction l as [|[i x] l IH]; intros acc; cbn.
  - by rewrite app_nil_r.
  - rewrite IH, flat_labels_of_video_app. by rewrite <- app_assoc.
Qed.

Lemma elem_of_build_flat_labels (labels : list Annotation) (i : nat) (f : Z) :
  (i, f) ∈ build_flat_labels labels
  ↔ ∃ x event, labels !! i = Some x ∧ event ∈ events x
               ∧ frame event = f ∧ f < num_frames x.
Proof.
  rewrite build_flat_labels_comprehension. unfold events_below_num_frames.
  rewrite list_elem_of_bind. split.
  - intros ([j x] & Hin & Hjx). apply list_elem_of_fmap in Hin as (e & [= -> ->] & He).
    apply list_elem_of_filter in He as [Hlt He].
    apply elem_of_enumerate in Hjx. eauto 8.
  - intros (x & e & Hx & He & <- & Hlt). exists (i, x). split.
    + apply list_elem_of_fmap. exists e. split; [done|].
      apply list_elem_of_filter. done.
    + by apply elem_of_enumerate.
Qed.

(** C6 (amended): the event index is built at construction exactly when
    [event_sample_rate > 0]; it then holds, video after video and event
    after event, one pair [(video_index, event_frame)] for precisely the
    annotated events whose frame is below [num_frames] of their video.
    No lower bound is checked. *)
Theorem flat_labels_built_iff_rate_positive
    (classes : gmap string Z) (labels : list Annotation)
    (cl dl : Z) (ie : bool) (st di : Z) (mx : bool) (np : Z) (rate : Q)
    (D : ActionSpotDataset) :
  init classes labels cl dl ie st di mx np rate = Ok D →
  (is_Some (flat_labels D) ↔ (0 < rate)%Q)
  ∧ ∀ fl, flat_labels D = Some fl →
      fl = events_below_num_frames labels
      ∧ ∀ i f, (i, f) ∈ fl
          ↔ ∃ x event, labels !! i = Some x ∧ event ∈ events x
                       ∧ frame event = f ∧ f < num_frames x.
Proof.
  intros Hinit.
  destruct (init_fails_or_builds classes labels cl dl ie st di mx np rate)
    as [[msg Hmsg]|(D' & HD' & Hfl)]; [congruence|].
  assert (D' = D) as -> by congruence. rewrite Hfl.
  unfold Qgtb. destruct (Qle_bool rate 0) eqn:Hle; cbn.
  - apply Qle_bool_iff in Hle. split.
    + split; [intros [? [=]] | intros Hlt]. exfalso. by apply Qlt_not_le in Hlt.
    + intros fl [=].
  - assert (Hpos : (0 < rate)%Q).
    { apply Qnot_le_lt. intros Hle'. apply Qle_bool_iff in Hle'. congruence. }
    split; [split; eauto|].
    intros fl [= <-]. split.
    + apply build_flat_labels_comprehension.
    + intros i f. apply elem_of_build_flat_labels.
Qed.

Lemma flat_labels_built_iff_rate_positive_witness :
  (is_Some (flat_labels (dataset classes_ab [video_pair] 8 1 2 0 (1 # 2)))
   ↔ (0 < 1 # 2)%Q)
  ∧ ∀ fl, flat_labels (dataset classes_ab [video_pair] 8 1 2 0 (1 # 2)) = Some fl →
      fl = events_below_num_frames [video_pair]
      ∧ ∀ i f, (i, f) ∈ fl
          ↔ ∃ x event, [video_pair] !! i = Some x ∧ event ∈ events x
                       ∧ frame event = f ∧ f < num_frames x.
Proof.
  apply (flat_labels_built_iff_rate_positive classes_ab [video_pair] 8 5 true 1 2
           false 0 (1 # 2)).
  reflexivity.
Defined.

(** C6, as stated, fails: an event at frame [-1] of a ten-frame video is
    outside [0, num_frames) and is indexed all the same. *)
Lemma flat_labels_keeps_negative_frame :
  ∃ D, init ∅ [video_early] 4 5 true 1 0 false 0 (1 # 2) = Ok D
       ∧ flat_labels D = Some [(0%nat, -1)]
       ∧ ev (-1) "a" ∈ events video_early
       ∧ ¬ (0 ≤ -1 < num_frames video_early).
Proof.
  eexists. split; [reflexivity|]. split; [reflexivity|]. split.
  - apply list_elem_of_here.
  - cbn. lia.
Qed.

(** ** The label vector *)

Section Labels.
Variables (D : ActionSpotDataset) (start_frame : Z).

Lemma seqZ_to_nat (lo n : Z) : seqZ lo n = seqZ lo (Z.of_nat (Z.to_nat n)).
Proof. unfold seqZ. by rewrite Nat2Z.id. Qed.

(** The inner loop writes [v] to a range of positions inside the array. *)
Lemma for_each_setitem (v : Z) (n : nat) :
  ∀ (lo : Z) (labels : list Z),
    fits_int64 v = true → 0 ≤ lo →
    lo + Z.of_nat n ≤ Z.of_nat (length labels) →
    ∃ labels',
      for_each (fun l i => np_setitem l i v) (seqZ lo (Z.of_nat n)) labels
      = Ok labels'
      ∧ length labels' = length labels
      ∧ ∀ j : nat, labels' !! j =
          if decide (lo ≤ Z.of_nat j < lo + Z.of_nat n) then Some v
          else labels !! j.
Proof.
  induction n as [|n IH]; intros lo labels Hv Hlo Hhi.
  - exists labels. cbn. split; [done|]. split; [done|].
    intros j. rewrite decide_False by lia. done.
  - rewrite seqZ_cons by lia. cbn [for_each].
    replace (Z.pred (Z.of_nat (S n))) with (Z.of_nat n) by lia.
    unfold np_setitem at 1.
    assert ((lo <? 0) = false) as -> by lia.
    assert (((lo <? 0) || (Z.of_nat (length labels) <=? lo)) = false) as ->.
    { apply orb_false_iff. split; lia. }
    rewrite Hv.
    destruct (IH (Z.succ lo) (<[Z.to_nat lo := v]> labels)) as (l' & Hl' & Hlen & Hget);
      [done | lia | rewrite length_insert; lia |].
    exists l'. split; [done|]. split; [by rewrite Hlen, length_insert|].
    intros j. rewrite Hget.
    destruct (decide (Z.to_nat lo = j)) as [<-|Hne].
    + rewrite list_lookup_insert_eq by lia.
      rewrite (decide_True (P := lo ≤ _ < _)) by lia.
      by destruct (decide _).
    + rewrite list_lookup_insert_ne by done.
      destruct (decide (Z.succ lo ≤ _ < _)), (decide (lo ≤ _ < _)); try done; lia.
Qed.

Hypothesis stride_pos : 0 < frame_sample_stride D.

Lemma write_event_outside (labels : list Z) (event : Event) :
  ¬ in_window D start_frame event →
  write_event D start_frame labels event = Ok labels.
Proof.
  unfold in_window, label_index_of, write_event, py_floordiv. intros Hout.
  assert ((frame_sample_stride D =? 0) = false) as -> by lia. cbn.
  set (li := (frame event - start_frame) `div` frame_sample_stride D) in *.
  clearbody li.
  destruct (_ && _) eqn:Hin; [|done]. apply andb_true_iff in Hin. lia.
Qed.

Lemma write_event_missing (labels : list Z) (event : Event) :
  in_window D start_frame event →
  classes_dict D !! label event = None →
  write_event D start_frame labels event = Raise (KeyError (label event)).
Proof.
  unfold in_window, label_index_of, write_event, py_floordiv. intros Hin Hnone.
  assert ((frame_sample_stride D =? 0) = false) as -> by lia. cbn.
  rewrite Hnone.
  set (li := (frame event - start_frame) `div` frame_sample_stride D) in *.
  clearbody li.
  destruct (_ && _) eqn:Hc; [done|]. apply andb_false_iff in Hc. lia.
Qed.

Lemma write_event_known (labels : list Z) (event : Event) (c : Z) :
  in_window D start_frame event →
  classes_dict D !! label event = Some c →
  fits_int64 c = true →
  length labels = Z.to_nat (clip_len D) →
  ∃ labels',
    write_event D start_frame labels event = Ok labels'
    ∧ length labels' = length labels
    ∧ ∀ i, 0 ≤ i < clip_len D →
        labels' !! Z.to_nat i =
          if decide (writes_to D start_frame event i) then Some c
          else labels !! Z.to_nat i.
Proof.
  intros Hin Hc Hfit Hlen.
  unfold write_event, py_floordiv.
  assert ((frame_sample_stride D =? 0) = false) as -> by lia. cbn.
  fold (label_index_of D start_frame event).
  pose proof Hin as [Hin1 Hin2].
  set (li := label_index_of D start_frame event) in *.
  assert (((li >=? - dilate_len D) && (li <? clip_len D + dilate_len D)) = true)
    as -> by (apply andb_true_iff; lia).
  rewrite Hc. unfold py_range. rewrite seqZ_to_nat.
  set (lo := Z.max 0 (li - dilate_len D)).
  set (hi := Z.min (clip_len D) (li + dilate_len D + 1)).
  destruct (for_each_setitem c (Z.to_nat (hi - lo)) lo labels)
    as (l' & Hl' & Hlen' & Hget); [done | lia | lia |].
  exists l'. split; [done|]. split; [done|].
  intros i Hi. rewrite Hget.
  destruct (decide (lo ≤ _ < _)), (decide (writes_to D start_frame event i))
    as [Hw|Hw]; try done; exfalso.
  - apply Hw. split; [done|]. fold li. subst lo hi. lia.
  - destruct Hw as [_ Hw]. fold li in Hw. subst lo hi. lia.
Qed.

Hypothesis clip_len_nonneg : 0 ≤ clip_len D.

(** The outer loop, from any array of the right length. *)
Lemma for_each_write_event (evs : list Event) :
  ∀ labels : list Z,
    known_in_window D start_frame evs →
    length labels = Z.to_nat (clip_len D) →
    ∃ labels',
      for_each (write_event D start_frame) evs labels = Ok labels'
      ∧ length labels' = Z.to_nat (clip_len D)
      ∧ ∀ i, 0 ≤ i < clip_len D →
          labels' !! Z.to_nat i =
            match last (filter (fun event => writes_to D start_frame event i) evs)
            with
            | Some event => Some (default 0 (classes_dict D !! label event))
            | None => labels !! Z.to_nat i
            end.
Proof.
  induction evs as [|e evs IH]; intros labels Hknown Hlen.
  - exists labels. cbn. done.
  - assert (Htail : known_in_window D start_frame evs).
    { intros e' He'. apply Hknown. by apply list_elem_of_further. }
    cbn [for_each].
    destruct (decide (in_window D start_frame e)) as [Hin|Hout].
    + destruct (Hknown e (list_elem_of_here _ _) Hin) as (c & Hc & Hfit).
      destruct (write_event_known labels e c Hin Hc Hfit Hlen)
        as (l1 & -> & Hlen1 & Hget1).
      destruct (IH l1 Htail) as (l2 & Hl2 & Hlen2 & Hget2); [congruence|].
      exists l2. split; [done|]. split; [done|].
      intros i Hi. rewrite Hget2, filter_cons by done.
      destruct (decide (writes_to D start_frame e i)) as [Hw|Hw].
      * rewrite last_cons. destruct (last (filter _ evs)); [done|].
        rewrite Hget1, decide_True by done. by rewrite Hc.
      * destruct (last (filter _ evs)); [done|].
        rewrite Hget1, decide_False by done. done.
    + rewrite (write_event_outside labels e Hout).
      destruct (IH labels Htail Hlen) as (l2 & Hl2 & Hlen2 & Hget2).
      exists l2. split; [done|]. split; [done|].
      intros i Hi. rewrite Hget2, filter_cons by done.
      rewrite decide_False; [done|]. unfold writes_to. tauto.
Qed.

(** An event that is written and has no class stops the outer loop
    with a [KeyError], whatever precedes it, as long as the classes
    before it fit the array. *)
Lemma for_each_write_event_missing (evs : list Event) :
  ∀ labels : list Z,
    length labels = Z.to_nat (clip_len D) →
    map_Forall (fun _ c => fits_int64 c = true) (classes_dict D) →
    (∃ event, event ∈ evs ∧ in_window D start_frame event
              ∧ classes_dict D !! label event = None) →
    ∃ event, event ∈ evs ∧ in_window D start_frame event
             ∧ classes_dict D !! label event = None
             ∧ for_each (write_event D start_frame) evs labels
               = Raise (KeyError (label event)).
Proof.
  induction evs as [|e evs IH]; intros labels Hlen Hfit (e0 & He0 & Hin0 & Hnone0).
  - by apply elem_of_nil in He0.
  - cbn [for_each].
    assert (Hrest : ∀ l1, length l1 = Z.to_nat (clip_len D) →
               e0 ≠ e →
               ∃ event, event ∈ e :: evs ∧ in_window D start_frame event
                 ∧ classes_dict D !! label event = None
                 ∧ for_each (write_event D start_frame) evs l1
                   = Raise (KeyError (label event))).
    { intros l1 Hl1 Hne. apply elem_of_cons in He0 as [?|He0]; [done|].
      destruct (IH l1 Hl1 Hfit) as (e1 & He1 & Hin1 & Hnone1 & Hrun); [eauto|].
      exists e1. split; [by apply list_elem_of_further|]. done. }
    destruct (decide (in_window D start_frame e)) as [Hin|Hout].
    + destruct (classes_dict D !! label e) as [c|] eqn:Hc.
      * destruct (write_event_known labels e c Hin Hc (Hfit _ _ Hc) Hlen)
          as (l1 & -> & Hlen1 & _).
        apply Hrest; [congruence|]. intros ->. congruence.
      * exists e. rewrite (write_event_missing labels e Hin Hc).
        split; [apply list_elem_of_here|]. done.
    + rewrite (write_event_outside labels e Hout).
      apply Hrest; [done|]. intros ->. done.
Qed.

End Labels.

(** C3: the label vector starts as [clip_len] zeros; the events are then
    taken in annotation order, each with
    [label_index = (event_frame - start) // stride], and an event is
    written exactly when [label_index] is in
    [[-dilate_len, clip_len + dilate_len)], to every position of
    [[max(0, label_index - dilate_len), min(clip_len, label_index + dilate_len + 1))];
    a position holds the class of the last event written there. *)
Theorem make_labels_last_write_wins
    (D : ActionSpotDataset) (clip_label : Annotation) (start_frame : Z) :
  0 < clip_len D →
  0 < frame_sample_stride D →
  known_in_window D start_frame (events clip_label) →
  ∃ labels,
    make_labels D clip_label start_frame = Ok labels
    ∧ length labels = Z.to_nat (clip_len D)
    ∧ ∀ i, 0 ≤ i < clip_len D →
        labels !! Z.to_nat i
        = Some (expected_label D start_frame (events clip_label) i).
Proof.
  intros Hcl Hst Hknown. unfold make_labels, np_zeros.
  assert ((clip_len D <? 0) = false) as -> by lia. cbn.
  destruct (for_each_write_event D start_frame Hst (events clip_label)
              (replicate (Z.to_nat (clip_len D)) 0) Hknown)
    as (labels & Hrun & Hlen & Hget); [by rewrite length_replicate|].
  exists labels. split; [done|]. split; [done|].
  intros i Hi. rewrite (Hget i Hi). unfold expected_label.
  destruct (last _); [done|].
  apply lookup_replicate_2. lia.
Qed.

Lemma make_labels_last_write_wins_witness :
  ∃ labels,
    make_labels (dataset classes_ab [video_pair] 8 1 2 0 (-1)) video_pair 2
    = Ok labels
    ∧ length labels = 8%nat
    ∧ ∀ i, 0 ≤ i < 8 →
        labels !! Z.to_nat i
        = Some (expected_label (dataset classes_ab [video_pair] 8 1 2 0 (-1)) 2
                  (events video_pair) i).
Proof.
  apply (make_labels_last_write_wins
           (dataset classes_ab [video_pair] 8 1 2 0 (-1)) video_pair 2).
  - cbn. lia.
  - cbn. lia.
  - intros event Hin _. cbn in Hin.
    apply elem_of_cons in Hin as [->|Hin].
    { exists 1. split; reflexivity. }
    apply elem_of_cons in Hin as [->|Hin].
    { exists 2. split; reflexivity. }
    by apply elem_of_nil in Hin.
Defined.

(** ** Sampling *)

Section Sampling.
Context {W Frames : Type} `{!Runtime W Frames}.
Implicit Types (D : ActionSpotDataset) (s : St (W := W)).

Lemma bind_Ok {A B : Type} (m : M A) (f : A → M B) s a s1 :
  m s = (Ok a, s1) → M_bind A B f m s = f a s1.
Proof. unfold M_bind. by intros ->. Qed.

Lemma bind_Raise {A B : Type} (m : M A) (f : A → M B) s e s1 :
  m s = (Raise e, s1) → M_bind A B f m s = (Raise e, s1).
Proof. unfold M_bind. by intros ->. Qed.

Lemma py_randint_range (a b : Z) s :
  a ≤ b →
  ∃ r s1, py_randint a b s = (Ok r, s1) ∧ a ≤ r ≤ b
          ∧ reader_calls s1 = reader_calls s.
Proof.
  intros Hab. unfold py_randint, draw.
  assert ((b <? a) = false) as -> by lia.
  pose proof (randint_range a b (world s) Hab) as Hr.
  destruct (randint a b (world s)) as [r w]. cbn in Hr.
  eexists _, _. split; [reflexivity|]. split; [lia|reflexivity].
Qed.

(** The start frame of an event-biased draw lies between the two
    bounds when they are in order, and is the lower bound otherwise. *)
Lemma sample_event_start_spec D (video_len frame_idx : Z) s :
  ∃ start s1,
    sample_event_start D video_len frame_idx s = (Ok start, s1)
    ∧ reader_calls s1 = reader_calls s
    ∧ lower_bound D frame_idx ≤ start
    ∧ (lower_bound D frame_idx < upper_bound D video_len frame_idx →
       start ≤ upper_bound D video_len frame_idx)
    ∧ (upper_bound D video_len frame_idx ≤ lower_bound D frame_idx →
       start = lower_bound D frame_idx ∧ s1 = s).
Proof.
  unfold sample_event_start.
  destruct (upper_bound D video_len frame_idx >? lower_bound D frame_idx) eqn:Hgt.
  - destruct (py_randint_range (lower_bound D frame_idx)
                (upper_bound D video_len frame_idx) s) as (r & s1 & Hr & Hrange & Hc);
      [lia|].
    exists r, s1. rewrite Hr. repeat split; try lia. 
  - exists (lower_bound D frame_idx), s. repeat split; try lia.
Qed.

Lemma lower_bound_le_frame D (frame_idx : Z) :
  0 < clip_len D → 0 < frame_sample_stride D → 0 ≤ n_pad_frames D →
  0 ≤ frame_idx →
  lower_bound D frame_idx ≤ frame_idx
  ∧ frame_idx < lower_bound D frame_idx + clip_len D * frame_sample_stride D.
Proof. unfold lower_bound. intros Hcl Hst Hnp Hf. nia. Qed.

(** What [sample_event] does once its draw from the index is known. *)
Lemma sample_event_unfold D fl (video_idx : nat) (frame_idx : Z) s s1 x :
  flat_labels D = Some fl →
  choices fl s = (Ok (video_idx, frame_idx), s1) →
  clip_labels D !! video_idx = Some x →
  sample_event D s =
    match sample_event_start D (num_frames x) frame_idx s1 with
    | (Ok start, s2) =>
        if start <=? frame_idx then
          if start + clip_len D >? frame_idx then (Ok (x, start), s2)
          else (Raise (AssertionError ""), s2)
        else (Raise (AssertionError ""), s2)
    | (Raise e, s2) => (Raise e, s2)
    end.
Proof.
  intros Hfl Hdraw Hx. unfold sample_event. rewrite Hfl.
  unfold mbind. rewrite (bind_Ok _ _ _ _ _ Hdraw). cbn beta iota. rewrite Hx.
  unfold M_bind, lift, py_assert, mret, M_ret.
  destruct (sample_event_start D (num_frames x) frame_idx s1) as [[start|e] s2];
    [|done].
  destruct (start <=? frame_idx); [|done].
  destruct (start + clip_len D >? frame_idx); done.
Qed.

(** C1: in an event-biased draw under a valid configuration, for an
    indexed event whose frame lies in [[0, num_frames)], the start frame
    that [sample_event] computes satisfies
    [start <= event_frame < start + clip_len * stride]; it is the start
    frame of every clip the draw returns. *)
Theorem sample_event_window_contains_event
    D fl (video_idx : nat) (frame_idx : Z) (x : Annotation) s s1 :
  0 < clip_len D → 0 < frame_sample_stride D → 0 ≤ n_pad_frames D →
  flat_labels D = Some fl →
  choices fl s = (Ok (video_idx, frame_idx), s1) →
  clip_labels D !! video_idx = Some x →
  0 ≤ frame_idx < num_frames x →
  ∃ start s2,
    sample_event_start D (num_frames x) frame_idx s1 = (Ok start, s2)
    ∧ start ≤ frame_idx < start + clip_len D * frame_sample_stride D
    ∧ (sample_event D s = (Ok (x, start), s2)
       ∨ sample_event D s = (Raise (AssertionError ""), s2)).
Proof.
  intros Hcl Hst Hnp Hfl Hdraw Hx Hf.
  destruct (sample_event_start_spec D (num_frames x) frame_idx s1)
    as (start & s2 & Hstart & _ & Hlo & Hup & Hdeg).
  destruct (lower_bound_le_frame D frame_idx) as [Hle Hlt]; try lia.
  exists start, s2. split; [done|].
  assert (Hwin : start ≤ frame_idx
                 < start + clip_len D * frame_sample_stride D).
  { destruct (decide (lower_bound D frame_idx
                      < upper_bound D (num_frames x) frame_idx)) as [Hord|Hord].
    - specialize (Hup Hord). unfold upper_bound in Hup. lia.
    - destruct Hdeg as [-> _]; lia. }
  split; [done|].
  rewrite (sample_event_unfold D fl video_idx frame_idx s s1 x Hfl Hdraw Hx), Hstart.
  destruct (start <=? frame_idx); [|by right].
  destruct (start + clip_len D >? frame_idx); [by left|by right].
Qed.

(** X20: with stride 1 and an indexed event at a non-negative frame both
    assertions of [sample_event] hold: the draw returns the video of the
    event and a start frame with [start <= event_frame < start + clip_len]. *)
Lemma sample_event_returns_with_stride_1
    D fl (video_idx : nat) (frame_idx : Z) (x : Annotation) s s1 :
  0 < clip_len D → frame_sample_stride D = 1 → 0 ≤ n_pad_frames D →
  flat_labels D = Some fl →
  choices fl s = (Ok (video_idx, frame_idx), s1) →
  clip_labels D !! video_idx = Some x →
  0 ≤ frame_idx →
  ∃ start s2,
    sample_event D s = (Ok (x, start), s2)
    ∧ start ≤ frame_idx < start + clip_len D.
Proof.
  intros Hcl Hst Hnp Hfl Hdraw Hx Hf.
  destruct (sample_event_start_spec D (num_frames x) frame_idx s1)
    as (start & s2 & Hstart & _ & Hlo & Hup & Hdeg).
  destruct (lower_bound_le_frame D frame_idx) as [Hle Hlt]; try lia.
  assert (Hwin : start ≤ frame_idx < start + clip_len D).
  { rewrite Hst in Hlt.
    destruct (decide (lower_bound D frame_idx
                      < upper_bound D (num_frames x) frame_idx)) as [Hord|Hord].
    - specialize (Hup Hord). unfold upper_bound in Hup. lia.
    - destruct Hdeg as [-> _]; lia. }
  exists start, s2. split; [|done].
  rewrite (sample_event_unfold D fl video_idx frame_idx s s1 x Hfl Hdraw Hx), Hstart.
  assert ((start <=? frame_idx) = true) as -> by lia.
  by assert ((start + clip_len D >? frame_idx) = true) as -> by lia.
Qed.

End Sampling.

Lemma sample_event_window_contains_event_witness :
  ∃ start s2,
    sample_event_start dataset_stride2 100 10
      {| world := {| Stub.tape := [3%N]; Stub.failures_left := 0;
                     Stub.served := 0 |};
         reader_calls := 0 |} = (Ok start, s2)
    ∧ start ≤ 10 < start + 2 * 2
    ∧ (sample_event dataset_stride2 (Stub.start [0%N; 3%N] 0)
       = (Ok (video_long, start), s2)
       ∨ sample_event dataset_stride2 (Stub.start [0%N; 3%N] 0)
         = (Raise (AssertionError ""), s2)).
Proof.
  apply (sample_event_window_contains_event dataset_stride2
           [(0%nat, 10)] 0 10 video_long (Stub.start [0%N; 3%N] 0)).
  - cbn. lia.
  - cbn. lia.
  - cbn. lia.
  - reflexivity.
  - reflexivity.
  - reflexivity.
  - cbn. lia.
Defined.

(** C5 at a failing input: with [clip_len = 2] and
    [frame_sample_stride = 2], the event at frame 10 of a hundred-frame
    video has bounds 7 and 10; when the generator draws 7 the second
    assertion, [start_frame + clip_len > frame_idx], fails, and the
    [AssertionError] leaves [__getitem__]. *)
Theorem sample_event_assertion_fails_with_stride2 :
  init classes_ab [video_long] 2 5 true 2 0 false 0 (1 # 2) = Ok dataset_stride2
  ∧ flat_labels dataset_stride2 = Some [(0%nat, 10)]
  ∧ lower_bound dataset_stride2 10 = 7
  ∧ upper_bound dataset_stride2 100 10 = 10
  ∧ sample_event dataset_stride2 (Stub.start [0%N; 0%N] 0)
    = (Raise (AssertionError ""), Stub.start [] 0)
  ∧ getitem 5 dataset_stride2 tt (Stub.start [(2 ^ 53 - 1)%N; 0%N; 0%N] 0)
    = Some (Raise (AssertionError ""), Stub.start [] 0).
Proof. repeat split; vm_compute; reflexivity. Qed.

(** ** Examples *)

Lemma Qgtb_true (x y : Q) : Qgtb x y = true ↔ (y < x)%Q.
Proof.
  unfold Qgtb. rewrite negb_true_iff. split.
  - intros Hle. apply Qnot_le_lt. intros Hxy. apply Qle_bool_iff in Hxy. congruence.
  - intros Hlt. destruct (Qle_bool x y) eqn:Hle; [|done].
    apply Qle_bool_iff in Hle. exfalso. by apply (Qlt_not_le _ _ Hlt).
Qed.

Lemma Qgtb_false (x y : Q) : Qgtb x y = false ↔ ¬ (y < x)%Q.
Proof.
  rewrite <- Qgtb_true. destruct (Qgtb x y); split; try done.
Qed.

Lemma wrap_int64_small (z : Z) : int64_min ≤ z ≤ int64_max → wrap_int64 z = z.
Proof.
  unfold int64_min, int64_max, wrap_int64. intros Hz.
  rewrite Z.mod_small by lia. lia.
Qed.

Lemma fold_left_add_acc (l : list Z) (acc : Z) :
  fold_left Z.add l acc = acc + sum_Z l.
Proof.
  unfold sum_Z. revert acc.
  induction l as [|x l IH]; intros acc; cbn [fold_left]; [lia|].
  rewrite (IH (acc + x)), (IH (0 + x)). lia.
Qed.

Lemma sum_Z_cons (x : Z) (l : list Z) : sum_Z (x :: l) = x + sum_Z l.
Proof. unfold sum_Z at 1. cbn [fold_left]. apply fold_left_add_acc. Qed.

Lemma sum_Z_nonneg (l : list Z) : Forall (fun v => 0 ≤ v) l → 0 ≤ sum_Z l.
Proof.
  induction 1 as [|x l Hx _ IH]; [done|]. rewrite sum_Z_cons. lia.
Qed.

(** Without overflow the wrapping sum is the sum. *)
Lemma np_sum_no_overflow (l : list Z) :
  Forall (fun v => 0 ≤ v) l → sum_Z l ≤ int64_max → np_sum l = sum_Z l.
Proof.
  unfold np_sum. intros Hpos Hsum.
  enough (Hgen : ∀ acc, 0 ≤ acc → acc + sum_Z l ≤ int64_max →
            fold_left (fun acc x => wrap_int64 (acc + x)) l acc = acc + sum_Z l).
  { rewrite Hgen; lia. }
  clear Hsum. induction Hpos as [|x l Hx Hl IH]; intros acc Hacc Hsum; cbn [fold_left].
  - unfold sum_Z. cbn. lia.
  - rewrite sum_Z_cons in *. pose proof (sum_Z_nonneg l Hl).
    rewrite wrap_int64_small by (unfold int64_min, int64_max in *; lia).
    rewrite IH; lia.
Qed.

Lemma sum_Z_pos_iff (l : list Z) :
  Forall (fun v => 0 ≤ v) l →
  0 < sum_Z l ↔ ∃ (i : nat) (v : Z), l !! i = Some v ∧ v ≠ 0.
Proof.
  induction 1 as [|x l Hx Hl IH].
  - split; [unfold sum_Z; cbn; lia|]. intros (i & v & Hi & _). by destruct i.
  - rewrite sum_Z_cons. pose proof (sum_Z_nonneg l Hl). split.
    + intros Hpos. destruct (decide (x = 0)) as [->|Hx0].
      * destruct IH as [IH _]. destruct IH as (i & v & Hi & Hv); [lia|].
        by exists (S i), v.
      * by exists 0%nat, x.
    + intros ([|i] & v & Hi & Hv); cbn in Hi.
      * injection Hi as ->. lia.
      * destruct IH as [_ IH]. assert (0 < sum_Z l) by eauto. lia.
Qed.

Section Examples.
Context {W Frames : Type} `{!Runtime W Frames}.
Implicit Types (D : ActionSpotDataset) (s : St (W := W))
  (ex : Example (Frames := Frames)).

(** C7: [get_sample] draws only when [event_sample_rate > 0], and then
    samples around an event exactly when the draw is strictly greater
    than [event_sample_rate]; in every other case it samples a clip
    uniformly.  The comparison is the one the code writes, so that a
    higher rate leaves fewer draws above it. *)
Theorem get_sample_strategy D s :
  let rate := event_sample_rate D in
  let r := (random (world s)).1 in
  let s1 := {| world := (random (world s)).2; reader_calls := reader_calls s |} in
  ((0 < rate)%Q ∧ (rate < r)%Q → get_sample D s = sample_event D s1)
  ∧ ((0 < rate)%Q ∧ ¬ (rate < r)%Q → get_sample D s = sample_clip D s1)
  ∧ (¬ (0 < rate)%Q → get_sample D s = sample_clip D s).
Proof.
  cbn zeta. unfold get_sample.
  destruct (Qgtb (event_sample_rate D) 0) eqn:Hpos.
  - apply Qgtb_true in Hpos. unfold mbind, M_bind, draw.
    destruct (random (world s)) as [r w]. cbn [fst snd].
    destruct (Qgtb r (event_sample_rate D)) eqn:Hgt.
    + apply Qgtb_true in Hgt. repeat split; [tauto|done].
    + apply Qgtb_false in Hgt. repeat split; [tauto|done].
  - apply Qgtb_false in Hpos. repeat split; tauto.
Qed.

(** *** The calls made to the frame reader *)

Lemma keeps_ret {A : Type} (a : A) : keeps_calls (W := W) (M_ret A a).
Proof. intros s r s1 [= _ <-]. done. Qed.

Lemma keeps_raise {A : Type} (e : PyExc) : keeps_calls (W := W) (raise (A := A) e).
Proof. intros s r s1 [= _ <-]. done. Qed.

Lemma keeps_lift {A : Type} (x : Result A) : keeps_calls (W := W) (lift x).
Proof. intros s r s1 [= _ <-]. done. Qed.

Lemma keeps_draw {A : Type} (op : W → A * W) : keeps_calls (W := W) (draw op).
Proof.
  intros s r s1. unfold draw. destruct (op (world s)). intros [= _ <-]. done.
Qed.

Lemma keeps_bind {A B : Type} (m : M A) (f : A → M B) :
  keeps_calls (W := W) m → (∀ a, keeps_calls (W := W) (f a)) → keeps_calls (W := W) (M_bind A B f m).
Proof.
  intros Hm Hf s r s1. unfold M_bind.
  destruct (m s) as [[a|e] s0] eqn:Hms.
  - intros Hfa. rewrite (Hf a _ _ _ Hfa). eauto.
  - intros [= _ <-]. eauto.
Qed.

Ltac keeps :=
  repeat first
    [ apply keeps_ret | apply keeps_raise | apply keeps_lift | apply keeps_draw
    | apply keeps_bind; [|intros ?]
    | match goal with
      | |- keeps_calls (match ?x with _ => _ end) => destruct x
      end ].

Lemma get_sample_keeps_calls D : keeps_calls (get_sample D).
Proof.
  unfold get_sample, sample_event, sample_clip, sample_event_start, choices,
    choices_weighted, py_randint, mbind, mret.
  keeps.
Qed.

(** What a successful [get_example] did. *)
Lemma get_example_Ok D s ex s1 :
  get_example D s = (Ok ex, s1) →
  ∃ clip_label start_frame s0,
    get_sample D s = (Ok (clip_label, start_frame), s0)
    ∧ make_labels D clip_label start_frame = Ok (example_label ex)
    ∧ contains_event ex = contains_event_of (example_label ex)
    ∧ reader_calls s1 = S (reader_calls s).
Proof.
  unfold get_example, mbind, M_bind, lift, call_load_frames, mret, M_ret.
  destruct (get_sample D s) as [[[x start]|e] s0] eqn:Hs; [|done].
  destruct (make_labels D x start) as [labels|e] eqn:Hl; [|done].
  destruct (load_frames _ _ _ _ _ _ _) as [frames w].
  intros [= <- <-]. exists x, start, s0. cbn.
  rewrite (get_sample_keeps_calls D _ _ _ Hs). done.
Qed.

(** A failure of the label construction leaves [get_example] before
    the frame reader is called. *)
Lemma get_example_Raise_labels D s clip_label start_frame s0 e :
  get_sample D s = (Ok (clip_label, start_frame), s0) →
  make_labels D clip_label start_frame = Raise e →
  get_example D s = (Raise e, s0).
Proof.
  intros Hs Hl. unfold get_example, mbind, M_bind, lift. by rewrite Hs, Hl.
Qed.

Lemma getitem_Raise {I : Type} D s (unused : I) fuel e s0 :
  get_example D s = (Raise e, s0) →
  getitem fuel D unused s = Some (Raise e, s0).
Proof. unfold getitem. by intros ->. Qed.

Lemma getitem_retry_step {I : Type} D s (unused : I) fuel ex0 s0 :
  get_example D s = (Ok ex0, s0) → example_frame ex0 = None →
  getitem (S fuel) D unused s = getitem fuel D unused s0.
Proof. unfold getitem. intros -> Hnone. cbn. by rewrite Hnone. Qed.

Lemma getitem_done {I : Type} D s (unused : I) fuel ex s1 :
  get_example D s = (Ok ex, s1) → is_Some (example_frame ex) →
  getitem fuel D unused s = Some (Ok ex, s1).
Proof.
  unfold getitem. intros -> [fr Hfr]. destruct fuel; cbn; by rewrite Hfr.
Qed.

(** Whatever [__getitem__] returns was returned by a call of
    [get_example], and it has frames. *)
Lemma retry_returns D fuel :
  ∀ ex0 s0 ex s1,
    retry fuel D ex0 s0 = Some (Ok ex, s1) →
    is_Some (example_frame ex)
    ∧ ((ex = ex0 ∧ s1 = s0) ∨ ∃ s', get_example D s' = (Ok ex, s1)).
Proof.
  induction fuel as [|fuel IH]; intros ex0 s0 ex s1; cbn.
  - destruct (example_frame ex0) eqn:Hfr; [|done].
    intros [= <- <-]. split; [by rewrite Hfr|by left].
  - destruct (example_frame ex0) eqn:Hfr.
    + intros [= <- <-]. split; [by rewrite Hfr|by left].
    + destruct (get_example D s0) as [[ex'|e] s'] eqn:Hex; [|done].
      intros Hret. destruct (IH _ _ _ _ Hret) as [Hsome [[-> ->]|Hprod]].
      * split; [done|]. right. eauto.
      * split; [done|]. by right.
Qed.

Lemma getitem_returns {I : Type} D s (unused : I) fuel ex s1 :
  getitem fuel D unused s = Some (Ok ex, s1) →
  is_Some (example_frame ex) ∧ ∃ s', get_example D s' = (Ok ex, s1).
Proof.
  unfold getitem. destruct (get_example D s) as [[ex0|e] s0] eqn:Hex; [|done].
  intros Hret. destruct (retry_returns D fuel _ _ _ _ Hret) as [Hsome [[-> ->]|Hprod]];
    eauto.
Qed.

(** C2: [__getitem__] never returns an example without frames.  When
    the frame reader returns [None] in the first [n] runs of
    [get_example] and frames in the next one, every run starting from
    the state the previous one left, [__getitem__] returns the example
    of that run, and the reader has been called [n + 1] times; with
    [n = 2], the third example after three calls. *)
Theorem getitem_retries_until_frames {I : Type} D (unused : I) (n : nat) :
  ∀ s (fuel : nat) ex s1,
    (∀ k, (k < n)%nat →
       ∃ exk, (get_example D (after_attempts D k s)).1 = Ok exk
              ∧ example_frame exk = None) →
    get_example D (after_attempts D n s) = (Ok ex, s1) →
    is_Some (example_frame ex) →
    (n ≤ fuel)%nat →
    getitem fuel D unused s = Some (Ok ex, s1)
    ∧ reader_calls s1 = (reader_calls s + n + 1)%nat
    ∧ ∀ fuel' ex' s', getitem fuel' D unused s = Some (Ok ex', s') →
        is_Some (example_frame ex').
Proof.
  assert (Hframes : ∀ s fuel' ex' s',
            getitem fuel' D unused s = Some (Ok ex', s') →
            is_Some (example_frame ex')).
  { intros s fuel' ex' s' Hret. by apply getitem_returns in Hret as [? _]. }
  induction n as [|n IH]; intros s fuel ex s1 Hfail Hgood Hsome Hfuel.
  - cbn in Hgood. split; [by apply getitem_done|]. split; [|by apply Hframes].
    apply get_example_Ok in Hgood as (_ & _ & _ & _ & _ & _ & ->). lia.
  - destruct fuel as [|fuel]; [lia|].
    destruct (Hfail 0%nat) as (ex0 & Hex0 & Hnone); [lia|]. cbn in Hex0.
    destruct (get_example D s) as [r0 s0] eqn:Hrun. cbn in Hex0. subst r0.
    rewrite (getitem_retry_step D s unused fuel ex0 s0 Hrun Hnone).
    cbn [after_attempts] in Hgood. rewrite Hrun in Hgood. cbn [snd] in Hgood.
    destruct (IH s0 fuel ex s1) as (Hret & Hcalls & _); [|done|done|lia|].
    { intros k Hk. destruct (Hfail (S k)) as (exk & Hexk & Hnk); [lia|].
      cbn [after_attempts] in Hexk. rewrite Hrun in Hexk. eauto. }
    split; [done|]. split.
    + apply get_example_Ok in Hrun as (_ & _ & _ & _ & _ & _ & Hc). lia.
    + intros fuel' ex' s'. apply Hframes.
Qed.

(** More fuel does not change what the loop returns. *)
Lemma retry_more_fuel D (fuel : nat) :
  ∀ (fuel' : nat) ex0 s0 r,
    retry fuel D ex0 s0 = Some r → (fuel ≤ fuel')%nat →
    retry fuel' D ex0 s0 = Some r.
Proof.
  induction fuel as [|fuel IH]; intros fuel' ex0 s0 r.
  - cbn. destruct (example_frame ex0) eqn:Hfr; [|done].
    intros <- _. destruct fuel'; cbn; by rewrite Hfr.
  - cbn. destruct (example_frame ex0) eqn:Hfr.
    + intros <- _. destruct fuel'; cbn; by rewrite Hfr.
    + intros Hret Hle. destruct fuel' as [|fuel']; [lia|]. cbn. rewrite Hfr.
      destruct (get_example D s0) as [[ex'|e] s']; [|done].
      apply IH; [done|lia].
Qed.

(** C10: [__getitem__] does not look at its index: from the same state,
    two calls with any two indices, of any types, do the same, and what
    one returns the other returns under any larger bound on the
    retries. *)
Theorem getitem_ignores_index {I J : Type} D (i : I) (j : J) (fuel : nat) s :
  getitem fuel D i s = getitem fuel D j s
  ∧ ∀ (fuel' : nat) r,
      getitem fuel D i s = Some r → (fuel ≤ fuel')%nat →
      getitem fuel' D j s = Some r.
Proof.
  split; [reflexivity|].
  intros fuel' r. unfold getitem.
  destruct (get_example D s) as [[ex0|e] s0]; [|done].
  apply retry_more_fuel.
Qed.

(** C8 (amended): when the chosen video has an event whose label is
    absent from the class map and whose [label_index] lies in
    [[-dilate_len, clip_len + dilate_len)], the class indices being
    64-bit, the label construction raises a [KeyError], an instance of
    [LookupError]; neither [get_example] nor [__getitem__] catches it,
    the frame reader is not called and nothing is retried. *)
Theorem missing_label_in_window_raises_KeyError {I : Type}
    D s (unused : I) (clip_label : Annotation) (start_frame : Z) s0
    (event : Event) :
  0 < clip_len D → 0 < frame_sample_stride D →
  map_Forall (fun _ c => fits_int64 c = true) (classes_dict D) →
  get_sample D s = (Ok (clip_label, start_frame), s0) →
  event ∈ events clip_label →
  in_window D start_frame event →
  classes_dict D !! label event = None →
  ∃ key,
    classes_dict D !! key = None
    ∧ make_labels D clip_label start_frame = Raise (KeyError key)
    ∧ isinstance (KeyError key) "LookupError" = true
    ∧ get_example D s = (Raise (KeyError key), s0)
    ∧ reader_calls s0 = reader_calls s
    ∧ ∀ fuel, getitem fuel D unused s = Some (Raise (KeyError key), s0).
Proof.
  intros Hcl Hst Hfit Hs Hin Hwin Hnone.
  destruct (for_each_write_event_missing D start_frame Hst (events clip_label)
              (replicate (Z.to_nat (clip_len D)) 0))
    as (e1 & _ & _ & Hnone1 & Hrun); [by rewrite length_replicate|done|eauto|].
  assert (Hlabels : make_labels D clip_label start_frame
                    = Raise (KeyError (label e1))).
  { unfold make_labels, np_zeros.
    assert ((clip_len D <? 0) = false) as -> by lia. exact Hrun. }
  pose proof (get_example_Raise_labels D s _ _ _ _ Hs Hlabels) as Hex.
  exists (label e1). repeat split; try done.
  - apply (get_sample_keeps_calls D _ _ _ Hs).
  - intros fuel. by apply getitem_Raise.
Qed.

End Examples.

Lemma getitem_retries_until_frames_witness :
  getitem 2 dataset_pair tt (Stub.start [0%N; 2%N; 0%N; 3%N; 0%N; 4%N] 2)
  = Some (Ok {| example_frame := Some 3%nat;
                example_label := [2; 2; 2; 2; 2; 0; 0; 0];
                contains_event := 1 |},
          {| world := {| Stub.tape := []; Stub.failures_left := 0;
                         Stub.served := 3 |};
             reader_calls := 3 |})
  ∧ 3%nat = (0 + 2 + 1)%nat
  ∧ ∀ fuel' ex' s',
      getitem fuel' dataset_pair tt
        (Stub.start [0%N; 2%N; 0%N; 3%N; 0%N; 4%N] 2) = Some (Ok ex', s') →
      is_Some (example_frame ex').
Proof.
  apply (getitem_retries_until_frames dataset_pair tt 2
           (Stub.start [0%N; 2%N; 0%N; 3%N; 0%N; 4%N] 2) 2).
  - intros [|[|k]] Hk; [| |lia].
    + eexists. split; reflexivity.
    + eexists. split; reflexivity.
  - reflexivity.
  - cbn. eauto.
  - lia.
Defined.

Lemma missing_label_in_window_raises_KeyError_witness :
  ∃ key,
    classes_dict dataset_no_b !! key = None
    ∧ make_labels dataset_no_b video_pair 2 = Raise (KeyError key)
    ∧ isinstance (KeyError key) "LookupError" = true
    ∧ get_example dataset_no_b (Stub.start [0%N; 2%N] 0)
      = (Raise (KeyError key), Stub.start [] 0)
    ∧ reader_calls (Stub.start [] 0) = reader_calls (Stub.start [0%N; 2%N] 0)
    ∧ ∀ fuel, getitem fuel dataset_no_b tt (Stub.start [0%N; 2%N] 0)
              = Some (Raise (KeyError key), Stub.start [] 0).
Proof.
  apply (missing_label_in_window_raises_KeyError dataset_no_b
           (Stub.start [0%N; 2%N] 0) tt video_pair 2 (Stub.start [] 0)
           (ev 6 "b")).
  - cbn. lia.
  - cbn. lia.
  - apply map_Forall_insert_2; [reflexivity|apply map_Forall_empty].
  - reflexivity.
  - cbn. apply list_elem_of_further, list_elem_of_here.
  - apply (bool_decide_unpack _). vm_compute. exact I.
  - reflexivity.
Defined.

(** C8, as stated, fails: the only event of the chosen video has a label
    that is not in the class map, but its [label_index] is 90, outside
    [[0, 4)]; it is never looked up, and the example is returned. *)
Lemma missing_label_outside_window_is_ignored :
  init classes_ab [video_late] 4 5 true 1 0 false 0 (-1) = Ok dataset_late
  ∧ ev 90 "zzz" ∈ events video_late
  ∧ classes_dict dataset_late !! "zzz" = None
  ∧ get_sample dataset_late (Stub.start [0%N; 0%N] 0)
    = (Ok (video_late, 0), Stub.start [] 0)
  ∧ make_labels dataset_late video_late 0 = Ok [0; 0; 0; 0]
  ∧ getitem 0 dataset_late tt (Stub.start [0%N; 0%N] 0)
    = Some (Ok {| example_frame := Some 1%nat;
                  example_label := [0; 0; 0; 0];
                  contains_event := 0 |},
            {| world := {| Stub.tape := []; Stub.failures_left := 0;
                           Stub.served := 1 |};
               reader_calls := 1 |}).
Proof.
  split; [reflexivity|].
  split; [apply list_elem_of_here|]. repeat split; vm_compute; reflexivity.
Qed.


(** ** Class names and video names *)

Lemma enumerate_snoc {A : Type} (xs : list A) (x : A) :
  enumerate (xs ++ [x]) = enumerate xs ++ [(length xs, x)].
Proof.
  unfold enumerate. rewrite length_app. cbn [length].
  rewrite seq_app. cbn [seq]. rewrite zip_with_app by by rewrite length_seq.
  by rewrite Nat.add_0_l.
Qed.

(** A dictionary filled from [enumerate(xs)], key by key, maps a key to
    the last position that carries it. *)
Lemma index_fold_lookup {A V : Type} (key : A → string) (val : nat → V)
    (xs : list A) (k : string) (v : V) :
  fold_left (fun (m : gmap string V) '(i, x) => <[key x := val i]> m)
    (enumerate xs) ∅ !! k = Some v
  ↔ ∃ (i : nat) (x : A),
      v = val i ∧ xs !! i = Some x ∧ key x = k
      ∧ ∀ (j : nat) (y : A), (i < j)%nat → xs !! j = Some y → key y ≠ k.
Proof.
  revert v. induction xs as [|x xs IH] using rev_ind; intros v.
  - cbn. rewrite lookup_empty. split; [done|]. by intros (i & y & _ & Hi & _).
  - rewrite enumerate_snoc, fold_left_app. cbn [fold_left].
    destruct (decide (key x = k)) as [Hk|Hk].
    + rewrite Hk, lookup_insert_eq. split.
      * intros [= <-]. exists (length xs), x. split; [done|].
        split; [by apply list_lookup_middle|]. split; [done|].
        intros j y Hj Hy. apply lookup_lt_Some in Hy.
        rewrite length_app in Hy. cbn in Hy. lia.
      * intros (i & y & -> & Hi & _ & Hlast).
        destruct (decide (i = length xs)) as [->|Hne]; [done|].
        exfalso. apply (Hlast (length xs) x); [|by apply list_lookup_middle|done].
        apply lookup_lt_Some in Hi. rewrite length_app in Hi. cbn in Hi. lia.
    + rewrite lookup_insert_ne by done. rewrite IH. split.
      * intros (i & y & -> & Hi & Hy & Hlast). exists i, y.
        split; [done|]. split; [by apply lookup_app_l_Some|]. split; [done|].
        intros j z Hj Hz. destruct (decide (j < length xs)%nat) as [Hlt|Hge].
        -- rewrite lookup_app_l in Hz by done. by apply (Hlast j).
        -- assert (j = length xs) as ->.
           { apply lookup_lt_Some in Hz. rewrite length_app in Hz. cbn in Hz. lia. }
           rewrite list_lookup_middle in Hz by done. by injection Hz as <-.
      * intros (i & y & -> & Hi & Hy & Hlast).
        assert (Hlt : (i < length xs)%nat).
        { destruct (decide (i = length xs)) as [->|Hne].
          - rewrite list_lookup_middle in Hi by done. injection Hi as <-. done.
          - apply lookup_lt_Some in Hi. rewrite length_app in Hi. cbn in Hi. lia. }
        rewrite lookup_app_l in Hi by done. exists i, y.
        split; [done|]. split; [done|]. split; [done|].
        intros j z Hj Hz. apply (Hlast j); [done|]. by apply lookup_app_l_Some.
Qed.

(** X1: a name is mapped to [i] exactly when line [i] strips to it and no
    later line does; every class index is the number of a line. *)
Theorem get_classes_lookup (strip : string → string) (lines : list string)
    (name : string) (c : Z) :
  get_classes strip lines !! name = Some c
  ↔ ∃ (i : nat) (line : string),
      c = Z.of_nat i ∧ lines !! i = Some line ∧ strip line = name
      ∧ ∀ (j : nat) (line' : string),
          (i < j)%nat → lines !! j = Some line' → strip line' ≠ name.
Proof. apply (index_fold_lookup strip Z.of_nat). Qed.

Lemma get_classes_range (strip : string → string) (lines : list string)
    (name : string) (c : Z) :
  get_classes strip lines !! name = Some c → 0 ≤ c < Z.of_nat (length lines).
Proof.
  intros (i & line & -> & Hi & _)%(index_fold_lookup strip Z.of_nat).
  apply lookup_lt_Some in Hi. lia.
Qed.

Lemma get_classes_None (strip : string → string) (lines : list string)
    (name : string) :
  get_classes strip lines !! name = None ↔ name ∉ strip <$> lines.
Proof.
  rewrite list_elem_of_fmap. split.
  - intros Hnone (line & -> & Hin).
    induction lines as [|x xs IH] using rev_ind; [by apply elem_of_nil in Hin|].
    unfold get_classes in Hnone.
    rewrite enumerate_snoc, fold_left_app in Hnone. cbn [fold_left] in Hnone.
    apply lookup_insert_None in Hnone as [Hnone Hne].
    apply elem_of_app in Hin as [Hin|Hin]; [by apply IH|].
    apply list_elem_of_singleton in Hin as ->. done.
  - intros Hnot. destruct (get_classes strip lines !! name) as [c|] eqn:Hc; [|done].
    apply (index_fold_lookup strip Z.of_nat) in Hc as (i & line & _ & Hi & Hs & _).
    exfalso. apply Hnot. exists line. split; [done|].
    apply list_elem_of_lookup. eauto.
Qed.

(** X2: a name is missing from the class map exactly when no line of
    the class file strips to it, and the class indices are non-negative
    and below the number of lines. *)
Theorem get_classes_keys_and_values (strip : string → string)
    (lines : list string) :
  (∀ name, get_classes strip lines !! name = None ↔ name ∉ strip <$> lines)
  ∧ map_Forall (fun _ c => 0 ≤ c < Z.of_nat (length lines))
      (get_classes strip lines).
Proof.
  split; [apply get_classes_None|]. intros name c. apply get_classes_range.
Qed.

(** X3: when the stripped lines are pairwise different, line [i] gets
    class index [i], and two names have the same index only if they are
    the same name. *)
Theorem get_classes_line_order (strip : string → string) (lines : list string) :
  NoDup (strip <$> lines) →
  (∀ (i : nat) (line : string),
     lines !! i = Some line →
     get_classes strip lines !! strip line = Some (Z.of_nat i))
  ∧ (∀ name name' c,
       get_classes strip lines !! name = Some c →
       get_classes strip lines !! name' = Some c → name = name').
Proof.
  intros Hnd. split.
  - intros i line Hi. apply (index_fold_lookup strip Z.of_nat).
    exists i, line. split; [done|]. split; [done|]. split; [done|].
    intros j line' Hj Hj' Heq.
    assert (i = j); [|lia].
    apply (NoDup_lookup (strip <$> lines) i j (strip line)); [done| |].
    + by rewrite list_lookup_fmap, Hi.
    + rewrite list_lookup_fmap, Hj'. cbn. by rewrite Heq.
  - intros name name' c
      (i & line & -> & Hi & <- & _)%(index_fold_lookup strip Z.of_nat)
      (j & line' & Hij & Hj & <- & _)%(index_fold_lookup strip Z.of_nat).
    assert (i = j) as -> by lia. congruence.
Qed.

Lemma get_classes_line_order_witness :
  (∀ (i : nat) (line : string),
     take 3 class_lines !! i = Some line →
     get_classes py_strip (take 3 class_lines) !! py_strip line
     = Some (Z.of_nat i))
  ∧ (∀ name name' c,
       get_classes py_strip (take 3 class_lines) !! name = Some c →
       get_classes py_strip (take 3 class_lines) !! name' = Some c →
       name = name').
Proof.
  apply (get_classes_line_order py_strip (take 3 class_lines)).
  apply (bool_decide_unpack _). vm_compute. exact I.
Defined.

(** X4: a line that strips to the same name as a later line loses its
    index: no name is mapped to it. *)
Theorem get_classes_duplicate_shadows (strip : string → string)
    (lines : list string) (i j : nat) (line line' : string) :
  (i < j)%nat → lines !! i = Some line → lines !! j = Some line' →
  strip line = strip line' →
  ∀ name, get_classes strip lines !! name ≠ Some (Z.of_nat i).
Proof.
  intros Hij Hi Hj Heq name
    (i' & l0 & Hii & Hi' & <- & Hlast)%(index_fold_lookup strip Z.of_nat).
  assert (i' = i) as -> by lia.
  assert (l0 = line) as -> by congruence.
  by apply (Hlast j line').
Qed.

Lemma get_classes_duplicate_shadows_witness :
  py_strip (" pass " +:+ nl) = py_strip ("pass" +:+ nl)
  ∧ ∀ name, get_classes py_strip class_lines !! name ≠ Some (Z.of_nat 1).
Proof.
  split; [vm_compute; reflexivity|].
  apply (get_classes_duplicate_shadows py_strip class_lines 1 3
           (" pass " +:+ nl) ("pass" +:+ nl)).
  - lia.
  - reflexivity.
  - reflexivity.
  - vm_compute. reflexivity.
Defined.

(** X5: the video index built at construction maps a name to the
    position of the last video of that name. *)
Theorem clip_indexes_last_video
    (classes : gmap string Z) (labels : list Annotation)
    (cl dl : Z) (ie : bool) (st di : Z) (mx : bool) (np : Z) (rate : Q)
    (D : ActionSpotDataset) (name : string) (i : nat) :
  init classes labels cl dl ie st di mx np rate = Ok D →
  clip_indexes D !! name = Some i
  ↔ ∃ x, clip_labels D !! i = Some x ∧ video x = name
         ∧ ∀ (j : nat) (y : Annotation),
             (i < j)%nat → clip_labels D !! j = Some y → video y ≠ name.
Proof.
  unfold init. intros Hinit.
  destruct (py_assert (cl >? 0) _); [|done].
  destruct (py_assert (st >? 0) _); [|done].
  destruct (py_assert (dl >? 0) _); [|done].
  destruct (py_assert (np >=? 0) _); [|done].
  cbn in Hinit. injection Hinit as <-. cbn [clip_indexes clip_labels].
  unfold build_clip_indexes.
  rewrite (index_fold_lookup video id labels name i). split.
  - intros (i' & x & -> & Hx). by exists x.
  - intros (x & Hx). by exists i, x.
Qed.

Lemma clip_indexes_last_video_witness :
  clip_indexes (dataset classes_ab [video_pair; video_early; video_pair] 8 1 2 0 (-1))
    !! "pair" = Some 2%nat
  ↔ ∃ x, clip_labels
           (dataset classes_ab [video_pair; video_early; video_pair] 8 1 2 0 (-1))
           !! 2%nat = Some x
         ∧ video x = "pair"
         ∧ ∀ (j : nat) (y : Annotation),
             (2 < j)%nat →
             clip_labels
               (dataset classes_ab [video_pair; video_early; video_pair] 8 1 2 0 (-1))
               !! j = Some y →
             video y ≠ "pair".
Proof.
  apply (clip_indexes_last_video classes_ab
           [video_pair; video_early; video_pair] 8 5 true 1 2 false 0 (-1)).
  reflexivity.
Defined.

(** ** More on sampling *)

Lemma fold_Qplus_weights (t : Z) (l : list Z) (acc : Q) :
  (fold_left Qplus ((fun n => inject_Z n / inject_Z t)%Q <$> l) acc
   == acc + inject_Z (sum_Z l) / inject_Z t)%Q.
Proof.
  revert acc. induction l as [|n l IH]; intros acc.
  - cbn. unfold Qdiv. ring.
  - rewrite fmap_cons. cbn [fold_left]. rewrite IH, sum_Z_cons, inject_Z_plus.
    unfold Qdiv. ring.
Qed.

(** The weights of a dataset with a non-zero total add up to one. *)
Lemma weights_total_positive (l : list Z) :
  sum_Z l ≠ 0 →
  Qle_bool
    (fold_left Qplus ((fun n => inject_Z n / inject_Z (sum_Z l))%Q <$> l) 0%Q) 0
  = false.
Proof.
  intros Hne. destruct (Qle_bool _ _) eqn:Hle; [|done]. exfalso.
  apply Qle_bool_iff in Hle. rewrite fold_Qplus_weights in Hle.
  assert (Hone : (0 + inject_Z (sum_Z l) / inject_Z (sum_Z l) == 1)%Q).
  { field. intros H0. apply Hne. unfold Qeq in H0. cbn in H0. lia. }
  rewrite Hone in Hle. by apply Qle_not_lt in Hle.
Qed.

Lemma wrap_int64_add_l (a x : Z) :
  wrap_int64 (wrap_int64 a + x) = wrap_int64 (a + x).
Proof.
  unfold wrap_int64.
  replace ((a + 2 ^ 63) `mod` 2 ^ 64 - 2 ^ 63 + x + 2 ^ 63)
    with ((a + 2 ^ 63) `mod` 2 ^ 64 + x) by lia.
  rewrite Zplus_mod_idemp_l. f_equal. f_equal. lia.
Qed.

(** The wrapping sum is the sum, wrapped once. *)
Lemma np_sum_wrap (l : list Z) : np_sum l = wrap_int64 (sum_Z l).
Proof.
  unfold np_sum.
  enough (Hgen : ∀ a, fold_left (fun acc x => wrap_int64 (acc + x)) l (wrap_int64 a)
                      = wrap_int64 (a + sum_Z l)).
  { apply (Hgen 0). }
  induction l as [|x l IH]; intros a; cbn [fold_left].
  - unfold sum_Z. cbn. by rewrite Z.add_0_r.
  - rewrite wrap_int64_add_l, IH, sum_Z_cons. f_equal. lia.
Qed.

Section MoreSampling.
Context {W Frames : Type} `{!Runtime W Frames}.
Implicit Types (D : ActionSpotDataset) (s : St (W := W)).

(** A draw from a non-empty population returns one of its elements. *)
Lemma choices_nonempty {A : Type} (population : list A) s :
  population ≠ [] →
  ∃ (i : nat) (x : A) s1,
    choices population s = (Ok x, s1) ∧ population !! i = Some x
    ∧ reader_calls s1 = reader_calls s.
Proof.
  intros Hne. unfold choices, mbind, M_bind, draw.
  pose proof (choices_index_range (length population) None (world s)) as Hlt.
  destruct (choices_index (length population) None (world s)) as [i w].
  cbn in Hlt.
  assert (Hi : (i < length population)%nat).
  { apply Hlt. destruct population; [done|cbn; lia]. }
  apply lookup_lt_is_Some in Hi as [x Hx]. rewrite Hx.
  exists i, x. eexists. split; [reflexivity|]. done.
Qed.

Lemma choices_empty {A : Type} s :
  ∃ s1, choices (@nil A) s = (Raise IndexError, s1)
        ∧ reader_calls s1 = reader_calls s.
Proof.
  unfold choices, mbind, M_bind, draw.
  destruct (choices_index _ _ _) as [i w]. cbn.
  eexists. split; reflexivity.
Qed.

(** X6: on a dataset with at least one video, frame counts that are
    not negative and a total that is positive and fits 64 bits,
    [sample_clip] returns one of the videos and a start frame that is
    never before [-n_pad_frames * stride]; the clip ends at most
    [n_pad_frames * stride - 1] frames after the video when the video is
    long enough for a choice, and starts exactly at
    [-n_pad_frames * stride] when it is not.  The frame reader is not
    called. *)
Theorem sample_clip_within_padding D s :
  clip_labels D ≠ [] →
  uniform_sample_weight D = build_uniform_sample_weight (clip_labels D) →
  Forall (fun n => 0 ≤ n) (num_frames <$> clip_labels D) →
  0 < sum_Z (num_frames <$> clip_labels D) ≤ int64_max →
  ∃ x start s1,
    sample_clip D s = (Ok (x, start), s1)
    ∧ x ∈ clip_labels D
    ∧ reader_calls s1 = reader_calls s
    ∧ - n_pad_frames D * frame_sample_stride D ≤ start
    ∧ (0 ≤ num_frames x - 1
           + (2 * n_pad_frames D - clip_len D) * frame_sample_stride D →
       start + clip_len D * frame_sample_stride D
       ≤ num_frames x - 1 + n_pad_frames D * frame_sample_stride D)
    ∧ (num_frames x - 1
       + (2 * n_pad_frames D - clip_len D) * frame_sample_stride D ≤ 0 →
       start = - n_pad_frames D * frame_sample_stride D).
Proof.
  intros Hne Hw Hpos [Htotal Hfit]. unfold sample_clip, choices_weighted.
  rewrite Hw. unfold build_uniform_sample_weight.
  rewrite (np_sum_no_overflow _ Hpos Hfit).
  assert ((sum_Z (num_frames <$> clip_labels D) =? 0) = false) as -> by lia.
  rewrite !length_fmap, Nat.eqb_refl. cbn [negb].
  destruct (clip_labels D) as [|x0 rest] eqn:Hlabels; [done|].
  rewrite <- Hlabels in *.
  rewrite (weights_total_positive (num_frames <$> clip_labels D)) by lia.
  unfold mbind, M_bind, draw.
  pose proof (choices_index_range (length (clip_labels D))
                (Some ((fun n => inject_Z n
                                 / inject_Z (sum_Z (num_frames <$> clip_labels D)))%Q
                         <$> (num_frames <$> clip_labels D))) (world s)) as Hlt.
  destruct (choices_index _ _ _) as [i w]. cbn [fst] in Hlt.
  assert (Hi : (i < length (clip_labels D))%nat).
  { apply Hlt. rewrite Hlabels. cbn. lia. }
  apply lookup_lt_is_Some in Hi as [x Hx]. rewrite Hx.
  unfold mret, M_ret.
  set (bound := Z.max 0 (num_frames x - 1
                         + (2 * n_pad_frames D - clip_len D) * frame_sample_stride D)).
  destruct (py_randint_range 0 bound
              {| world := w; reader_calls := reader_calls s |})
    as (r & s1 & Hr & Hrange & Hcalls); [unfold bound; lia|].
  rewrite Hr. exists x, (- n_pad_frames D * frame_sample_stride D + r), s1.
  split; [done|]. split; [apply list_elem_of_lookup; eauto|].
  split; [done|]. unfold bound in Hrange. repeat split; nia.
Qed.

(** X7: without frames to weigh there is nothing to sample: with no
    video at all [sample_clip] raises [IndexError], and with videos whose
    frame counts add up to zero it raises [ValueError]; it draws nothing
    before it does. *)
Theorem sample_clip_without_frames D s :
  uniform_sample_weight D = build_uniform_sample_weight (clip_labels D) →
  sum_Z (num_frames <$> clip_labels D) = 0 →
  sample_clip D s
  = (Raise (match clip_labels D with [] => IndexError | _ => ValueError end), s).
Proof.
  intros Hw Htotal. unfold sample_clip, choices_weighted, mbind, M_bind.
  rewrite Hw. unfold build_uniform_sample_weight.
  rewrite np_sum_wrap, Htotal.
  assert (wrap_int64 0 = 0) as -> by (vm_compute; reflexivity). cbn.
  by destruct (clip_labels D).
Qed.

(** X8: with event-biased sampling switched on and no event below the
    frame count of its video, the event index is empty and
    [sample_event] raises [IndexError]. *)
Theorem sample_event_empty_index
    (classes : gmap string Z) (labels : list Annotation)
    (cl dl : Z) (ie : bool) (st di : Z) (mx : bool) (np : Z) (rate : Q) D s :
  init classes labels cl dl ie st di mx np rate = Ok D →
  (0 < rate)%Q →
  (∀ x event, x ∈ labels → event ∈ events x → num_frames x ≤ frame event) →
  ∃ s1, sample_event D s = (Raise IndexError, s1)
        ∧ reader_calls s1 = reader_calls s.
Proof.
  intros Hinit Hrate Hnone.
  destruct (init_fails_or_builds classes labels cl dl ie st di mx np rate)
    as [[msg Hmsg]|(D' & HD' & Hfl)]; [congruence|].
  assert (D' = D) as -> by congruence.
  apply Qgtb_true in Hrate. rewrite Hrate in Hfl.
  assert (Hnil : build_flat_labels labels = []).
  { apply elem_of_nil_inv. intros [i f] Hin.
    apply elem_of_build_flat_labels in Hin as (x & event & Hx & Hev & <- & Hlt).
    assert (Hxin : x ∈ labels) by (apply list_elem_of_lookup; eauto).
    specialize (Hnone x event Hxin Hev). lia. }
  unfold sample_event. rewrite Hfl, Hnil. unfold mbind.
  destruct (choices_empty (A := nat * Z) s) as (s1 & Hs1 & Hcalls).
  exists s1. by rewrite (bind_Raise _ _ _ _ _ Hs1).
Qed.

(** X9: on a constructed dataset with a non-empty event index,
    [sample_event] draws an indexed event of an existing video and
    computes a start frame that is not before [-n_pad_frames * stride];
    with that event and that start frame it returns the video and the
    start frame when the event lies within [clip_len] frames from the
    start, and raises [AssertionError] when it does not.  It raises
    nothing else, and the frame reader is not called. *)
Theorem sample_event_outcome
    (classes : gmap string Z) (labels : list Annotation)
    (cl dl : Z) (ie : bool) (st di : Z) (mx : bool) (np : Z) (rate : Q) D s :
  init classes labels cl dl ie st di mx np rate = Ok D →
  (0 < rate)%Q →
  build_flat_labels labels ≠ [] →
  ∃ (video_idx : nat) (frame_idx : Z) (x : Annotation) (start : Z) s1 s2,
    choices (build_flat_labels labels) s = (Ok (video_idx, frame_idx), s1)
    ∧ (video_idx, frame_idx) ∈ build_flat_labels labels
    ∧ labels !! video_idx = Some x
    ∧ sample_event_start D (num_frames x) frame_idx s1 = (Ok start, s2)
    ∧ reader_calls s2 = reader_calls s
    ∧ - np * st ≤ start
    ∧ sample_event D s
      = (if decide (start ≤ frame_idx < start + cl)
         then Ok (x, start) else Raise (AssertionError ""), s2).
Proof.
  intros Hinit Hrate Hne.
  destruct (decide (0 < cl ∧ 0 < st ∧ 0 < dl ∧ 0 ≤ np)) as [Hv|Hv]; cycle 1.
  { destruct (init_invalid classes labels cl dl ie st di mx np rate) as [msg Hmsg];
      [lia|congruence]. }
  destruct Hv as (H1 & H2 & H3 & H4).
  destruct (init_valid classes labels cl dl ie st di mx np rate H1 H2 H3 H4)
    as (D' & HD' & Hcl & Hst & _ & Hnp & Hlabels & _ & _ & _ & Hfl).
  assert (D' = D) as -> by congruence.
  apply Qgtb_true in Hrate. rewrite Hrate in Hfl.
  destruct (choices_nonempty (build_flat_labels labels) s Hne)
    as (i & [video_idx frame_idx] & s1 & Hdraw & Hi & Hcalls1).
  assert (Hin : (video_idx, frame_idx) ∈ build_flat_labels labels)
    by (apply list_elem_of_lookup; eauto).
  pose proof Hin as (x & event & Hx & _)%elem_of_build_flat_labels.
  destruct (sample_event_start_spec D (num_frames x) frame_idx s1)
    as (start & s2 & Hstart & Hcalls2 & Hlo & _ & _).
  exists video_idx, frame_idx, x, start, s1, s2.
  split; [done|]. split; [done|]. split; [done|]. split; [done|].
  split; [congruence|].
  split; [unfold lower_bound in Hlo; rewrite Hnp, Hst in Hlo; lia|].
  rewrite <- Hlabels in Hx.
  rewrite (sample_event_unfold D _ video_idx frame_idx s s1 x Hfl Hdraw Hx), Hstart.
  rewrite Hcl.
  destruct (start <=? frame_idx) eqn:Hle; [|by rewrite decide_False by lia].
  destruct (start + cl >? frame_idx) eqn:Hgt.
  - by rewrite decide_True by lia.
  - by rewrite decide_False by lia.
Qed.

(** X10: an indexed event that lies before [-n_pad_frames * stride]
    cannot be sampled: when the draw picks it, the first assertion of
    [sample_event] fails. *)
Theorem sample_event_rejects_early_event
    D fl (video_idx : nat) (frame_idx : Z) (x : Annotation) s s1 :
  flat_labels D = Some fl →
  choices fl s = (Ok (video_idx, frame_idx), s1) →
  clip_labels D !! video_idx = Some x →
  frame_idx < - n_pad_frames D * frame_sample_stride D →
  sample_event D s = (Raise (AssertionError ""), s1).
Proof.
  intros Hfl Hdraw Hx Hearly.
  rewrite (sample_event_unfold D fl video_idx frame_idx s s1 x Hfl Hdraw Hx).
  destruct (sample_event_start_spec D (num_frames x) frame_idx s1)
    as (start & s2 & Hstart & _ & Hlo & _ & Hdeg).
  destruct Hdeg as [-> ->].
  { unfold upper_bound, lower_bound. lia. }
  rewrite Hstart.
  assert ((lower_bound D frame_idx <=? frame_idx) = false) as ->; [|done].
  unfold lower_bound. lia.
Qed.

End MoreSampling.

Lemma sample_clip_within_padding_witness :
  ∃ x start s1,
    sample_clip dataset_pair (Stub.start [0%N; 2%N] 0) = (Ok (x, start), s1)
    ∧ x ∈ clip_labels dataset_pair
    ∧ reader_calls s1 = reader_calls (Stub.start [0%N; 2%N] 0)
    ∧ - n_pad_frames dataset_pair * frame_sample_stride dataset_pair ≤ start
    ∧ (0 ≤ num_frames x - 1
           + (2 * n_pad_frames dataset_pair - clip_len dataset_pair)
             * frame_sample_stride dataset_pair →
       start + clip_len dataset_pair * frame_sample_stride dataset_pair
       ≤ num_frames x - 1
         + n_pad_frames dataset_pair * frame_sample_stride dataset_pair)
    ∧ (num_frames x - 1
       + (2 * n_pad_frames dataset_pair - clip_len dataset_pair)
         * frame_sample_stride dataset_pair ≤ 0 →
       start = - n_pad_frames dataset_pair * frame_sample_stride dataset_pair).
Proof.
  apply (sample_clip_within_padding dataset_pair (Stub.start [0%N; 2%N] 0)).
  - discriminate.
  - reflexivity.
  - cbn. apply Forall_cons. split; [lia|]. by apply Forall_nil.
  - vm_compute. split; [reflexivity|discriminate].
Defined.

Lemma sample_clip_without_frames_witness :
  sample_clip (dataset classes_ab [video_empty] 8 1 2 0 (-1))
    (Stub.start [0%N; 2%N] 0)
  = (Raise ValueError, Stub.start [0%N; 2%N] 0).
Proof.
  apply (sample_clip_without_frames
           (dataset classes_ab [video_empty] 8 1 2 0 (-1))
           (Stub.start [0%N; 2%N] 0)).
  - reflexivity.
  - reflexivity.
Defined.

Lemma sample_event_empty_index_witness :
  ∃ s1,
    sample_event (dataset classes_ab [video_beyond] 4 1 0 0 (1 # 2))
      (Stub.start [0%N; 2%N] 0) = (Raise IndexError, s1)
    ∧ reader_calls s1 = reader_calls (Stub.start [0%N; 2%N] 0).
Proof.
  apply (sample_event_empty_index classes_ab [video_beyond] 4 5 true 1 0 false 0
           (1 # 2)).
  - reflexivity.
  - reflexivity.
  - intros x event ->%list_elem_of_singleton Hev. cbn in Hev.
    apply elem_of_cons in Hev as [->|Hev]; [cbn; lia|].
    apply list_elem_of_singleton in Hev as ->. cbn. lia.
Defined.

Lemma sample_event_outcome_witness :
  ∃ (video_idx : nat) (frame_idx : Z) (x : Annotation) (start : Z) s1 s2,
    choices (build_flat_labels [video_long]) (Stub.start [0%N; 3%N] 0)
    = (Ok (video_idx, frame_idx), s1)
    ∧ (video_idx, frame_idx) ∈ build_flat_labels [video_long]
    ∧ [video_long] !! video_idx = Some x
    ∧ sample_event_start dataset_stride2 (num_frames x) frame_idx s1
      = (Ok start, s2)
    ∧ reader_calls s2 = reader_calls (Stub.start [0%N; 3%N] 0)
    ∧ - 0 * 2 ≤ start
    ∧ sample_event dataset_stride2 (Stub.start [0%N; 3%N] 0)
      = (if decide (start ≤ frame_idx < start + 2)
         then Ok (x, start) else Raise (AssertionError ""), s2).
Proof.
  apply (sample_event_outcome classes_ab [video_long] 2 5 true 2 0 false 0 (1 # 2)).
  - reflexivity.
  - reflexivity.
  - vm_compute. discriminate.
Defined.

Lemma sample_event_rejects_early_event_witness :
  sample_event (dataset classes_ab [video_early] 4 1 0 0 (1 # 2))
    (Stub.start [0%N] 0)
  = (Raise (AssertionError ""), Stub.start [] 0).
Proof.
  apply (sample_event_rejects_early_event
           (dataset classes_ab [video_early] 4 1 0 0 (1 # 2))
           [(0%nat, -1)] 0 (-1) video_early (Stub.start [0%N] 0)).
  - reflexivity.
  - reflexivity.
  - reflexivity.
  - cbn. lia.
Defined.

(** ** More on the label vector *)

Section MoreLabels.
Variables (D : ActionSpotDataset) (start_frame : Z).

(** What the inner loop leaves when it ends normally. *)
Lemma for_each_setitem_Ok (v : Z) (idxs : list Z) :
  ∀ labels labels' : list Z,
    for_each (fun l i => np_setitem l i v) idxs labels = Ok labels' →
    length labels' = length labels
    ∧ ∀ u, u ∈ labels' → u ∈ labels ∨ (u = v ∧ fits_int64 v = true).
Proof.
  induction idxs as [|i idxs IH]; intros labels labels'; cbn [for_each].
  - intros [= <-]. auto.
  - destruct (np_setitem labels i v) as [l1|e] eqn:Hset; [|done].
    intros Hrest. destruct (IH _ _ Hrest) as [Hlen Hin].
    unfold np_setitem in Hset.
    destruct (_ || _); [done|].
    destruct (fits_int64 v) eqn:Hfit; [|done]. injection Hset as <-.
    rewrite length_insert in Hlen. split; [done|].
    intros u Hu. destruct (Hin u Hu) as [Hold|Hnew]; [|by right].
    apply list_elem_of_lookup in Hold as [j Hj].
    apply list_lookup_insert_Some in Hj as [(_ & <- & _)|[_ Hj]]; [by right|].
    left. apply list_elem_of_lookup. eauto.
Qed.

Lemma write_event_Ok (labels labels' : list Z) (event : Event) :
  write_event D start_frame labels event = Ok labels' →
  length labels' = length labels
  ∧ ∀ u, u ∈ labels' → u ∈ labels ∨ entry_ok D start_frame [event] u.
Proof.
  unfold write_event, py_floordiv.
  destruct (frame_sample_stride D =? 0); [done|]. cbn.
  fold (label_index_of D start_frame event).
  destruct (_ && _) eqn:Hin; [|intros [= <-]; auto].
  destruct (classes_dict D !! label event) as [c|] eqn:Hc; [|done].
  intros Hrun. apply for_each_setitem_Ok in Hrun as [Hlen Hu].
  split; [done|]. intros u Hin'. destruct (Hu u Hin') as [?|[-> Hfit]]; [by left|].
  right. right. split; [done|]. exists event.
  split; [apply list_elem_of_here|]. split; [done|].
  apply andb_true_iff in Hin. unfold in_window. lia.
Qed.

Lemma for_each_write_event_Ok (evs : list Event) :
  ∀ labels labels' : list Z,
    for_each (write_event D start_frame) evs labels = Ok labels' →
    length labels' = length labels
    ∧ ∀ u, u ∈ labels' → u ∈ labels ∨ entry_ok D start_frame evs u.
Proof.
  induction evs as [|e evs IH]; intros labels labels'; cbn [for_each].
  - intros [= <-]. auto.
  - destruct (write_event D start_frame labels e) as [l1|err] eqn:Hw; [|done].
    intros Hrest. destruct (IH _ _ Hrest) as [Hlen Hin].
    destruct (write_event_Ok _ _ _ Hw) as [Hlen1 Hin1].
    split; [congruence|]. intros u Hu.
    assert (Hmono : ∀ evs1 evs2 : list Event,
              (∀ x, x ∈ evs1 → x ∈ evs2) → entry_ok D start_frame evs1 u → entry_ok D start_frame evs2 u).
    { intros evs1 evs2 Hsub [?|(Hfit & ev0 & Hev0 & Hrest0)]; [by left|].
      right. split; [done|]. exists ev0. split; [by apply Hsub|done]. }
    destruct (Hin u Hu) as [Hl1|Hok].
    + destruct (Hin1 u Hl1) as [?|Hok]; [by left|]. right.
      apply (Hmono [e]); [|done].
      intros y ->%list_elem_of_singleton. apply list_elem_of_here.
    + right. apply (Hmono evs); [|done]. intros y Hy. by apply list_elem_of_further.
Qed.

(** X11: whenever the label construction ends normally, the label
    vector has [clip_len] entries, and each of them is the background 0
    or the class, a 64-bit value, of an event of the video whose
    [label_index] is in [[-dilate_len, clip_len + dilate_len)]. *)
Theorem make_labels_entries (clip_label : Annotation) (labels : list Z) :
  make_labels D clip_label start_frame = Ok labels →
  Z.of_nat (length labels) = clip_len D
  ∧ ∀ u, u ∈ labels →
      u = 0
      ∨ (fits_int64 u = true
         ∧ ∃ event, event ∈ events clip_label
                    ∧ classes_dict D !! label event = Some u
                    ∧ in_window D start_frame event).
Proof.
  unfold make_labels, np_zeros.
  destruct (clip_len D <? 0) eqn:Hneg; [done|]. cbn.
  intros Hrun. apply for_each_write_event_Ok in Hrun as [Hlen Hin].
  rewrite length_replicate in Hlen. split; [lia|].
  intros u Hu. destruct (Hin u Hu) as [Hzero|Hok]; [|done].
  left. by apply elem_of_replicate in Hzero as [-> _].
Qed.

Lemma np_sum_zeros (n : nat) : np_sum (replicate n 0) = 0.
Proof. unfold np_sum. induction n as [|n IH]; [done|]. cbn. exact IH. Qed.

(** X12: when no event of the video has its [label_index] in
    [[-dilate_len, clip_len + dilate_len)], the label vector is all
    background and [contains_event] is 0; no class is looked up, so
    event labels that are missing from the class map do no harm. *)
Theorem make_labels_background (clip_label : Annotation) :
  0 < frame_sample_stride D → 0 ≤ clip_len D →
  (∀ event, event ∈ events clip_label → ¬ in_window D start_frame event) →
  make_labels D clip_label start_frame = Ok (replicate (Z.to_nat (clip_len D)) 0)
  ∧ contains_event_of (replicate (Z.to_nat (clip_len D)) 0) = 0.
Proof.
  intros Hst Hcl Hout. split.
  - unfold make_labels, np_zeros.
    assert ((clip_len D <? 0) = false) as -> by lia. cbn.
    generalize (replicate (Z.to_nat (clip_len D)) 0) as labels.
    induction (events clip_label) as [|e evs IH]; intros labels; [done|].
    cbn [for_each]. rewrite write_event_outside; [|done|].
    + apply IH. intros e' He'. apply Hout. by apply list_elem_of_further.
    + apply Hout. apply list_elem_of_here.
  - unfold contains_event_of. by rewrite np_sum_zeros.
Qed.

(** X13: dilation of a single event: when the video has exactly one
    event, with class [c], the label vector holds [c] at the positions
    [i] of the clip with [label_index - dilate_len <= i <= label_index +
    dilate_len] and background everywhere else; with a negative
    [dilate_len] nothing is written. *)
Theorem make_labels_single_event (clip_label : Annotation) (event : Event)
    (c : Z) :
  0 < frame_sample_stride D → 0 ≤ clip_len D →
  events clip_label = [event] →
  classes_dict D !! label event = Some c →
  fits_int64 c = true →
  ∃ labels,
    make_labels D clip_label start_frame = Ok labels
    ∧ length labels = Z.to_nat (clip_len D)
    ∧ ∀ i, 0 ≤ i < clip_len D →
        labels !! Z.to_nat i
        = Some (if decide (label_index_of D start_frame event - dilate_len D ≤ i
                           ≤ label_index_of D start_frame event + dilate_len D)
                then c else 0).
Proof.
  intros Hst Hcl Hev Hc Hfit. unfold make_labels, np_zeros.
  assert ((clip_len D <? 0) = false) as -> by lia. cbn. rewrite Hev.
  destruct (for_each_write_event D start_frame Hst [event]
              (replicate (Z.to_nat (clip_len D)) 0))
    as (labels & Hrun & Hlen & Hget).
  { intros e ->%list_elem_of_singleton _. eauto. }
  { by rewrite length_replicate. }
  exists labels. split; [done|]. split; [done|].
  intros i Hi. rewrite (Hget i Hi), filter_cons, filter_nil.
  set (li := label_index_of D start_frame event).
  destruct (decide (writes_to D start_frame event i)) as [Hw|Hw].
  - cbn. rewrite Hc. cbn. rewrite decide_True; [done|].
    destruct Hw as (_ & Hlo & Hhi). fold li in Hlo, Hhi. lia.
  - cbn. rewrite lookup_replicate_2 by lia. rewrite decide_False; [done|].
    intros Hnear. apply Hw. unfold writes_to, in_window. fold li. lia.
Qed.

(** X14: with the class map that [get_classes] builds, every entry of a
    label vector is a class index between 0 and the number of lines of
    the class file. *)
Theorem make_labels_class_range (strip : string → string)
    (lines : list string) (clip_label : Annotation) (labels : list Z) :
  classes_dict D = get_classes strip lines →
  make_labels D clip_label start_frame = Ok labels →
  ∀ u, u ∈ labels → 0 ≤ u ∧ (u ≠ 0 → u < Z.of_nat (length lines)).
Proof.
  intros Hclasses Hrun u Hu. unfold make_labels, np_zeros in Hrun.
  destruct (clip_len D <? 0); [done|]. cbn in Hrun.
  apply for_each_write_event_Ok in Hrun as [_ Hin].
  destruct (Hin u Hu) as [Hzero|[->|(_ & e & _ & Hc & _)]].
  - apply elem_of_replicate in Hzero as [-> _]. lia.
  - lia.
  - rewrite Hclasses in Hc. apply get_classes_range in Hc. lia.
Qed.

End MoreLabels.

Lemma make_labels_entries_witness :
  Z.of_nat (length [1; 1; 2; 2; 2; 2; 2; 0]) = clip_len dataset_pair
  ∧ ∀ u, u ∈ [1; 1; 2; 2; 2; 2; 2; 0] →
      u = 0
      ∨ (fits_int64 u = true
         ∧ ∃ event, event ∈ events video_pair
                    ∧ classes_dict dataset_pair !! label event = Some u
                    ∧ in_window dataset_pair 2 event).
Proof.
  apply (make_labels_entries dataset_pair 2 video_pair). reflexivity.
Defined.

Lemma make_labels_background_witness :
  make_labels dataset_late video_late 0
  = Ok (replicate (Z.to_nat (clip_len dataset_late)) 0)
  ∧ contains_event_of (replicate (Z.to_nat (clip_len dataset_late)) 0) = 0.
Proof.
  apply (make_labels_background dataset_late 0 video_late).
  - cbn. lia.
  - cbn. lia.
  - intros event ->%list_elem_of_singleton Hin.
    apply (bool_decide_pack _) in Hin. vm_compute in Hin. exact Hin.
Defined.

Lemma make_labels_single_event_witness :
  ∃ labels,
    make_labels (dataset classes_ab [video_single] 8 1 2 0 (-1)) video_single 2
    = Ok labels
    ∧ length labels
      = Z.to_nat (clip_len (dataset classes_ab [video_single] 8 1 2 0 (-1)))
    ∧ ∀ i, 0 ≤ i < clip_len (dataset classes_ab [video_single] 8 1 2 0 (-1)) →
        labels !! Z.to_nat i
        = Some (if decide
                     (label_index_of
                        (dataset classes_ab [video_single] 8 1 2 0 (-1)) 2
                        (ev 5 "b")
                      - dilate_len (dataset classes_ab [video_single] 8 1 2 0 (-1))
                      ≤ i
                      ≤ label_index_of
                          (dataset classes_ab [video_single] 8 1 2 0 (-1)) 2
                          (ev 5 "b")
                        + dilate_len
                            (dataset classes_ab [video_single] 8 1 2 0 (-1)))
                then 2 else 0).
Proof.
  apply (make_labels_single_event
           (dataset classes_ab [video_single] 8 1 2 0 (-1)) 2 video_single
           (ev 5 "b") 2).
  - cbn. lia.
  - cbn. lia.
  - reflexivity.
  - reflexivity.
  - reflexivity.
Defined.

Lemma make_labels_class_range_witness :
  classes_dict dataset_from_file = get_classes py_strip class_lines
  ∧ ∀ u, u ∈ [3; 3; 2; 2; 2; 2; 2; 0] →
      0 ≤ u ∧ (u ≠ 0 → u < Z.of_nat (length class_lines)).
Proof.
  split; [reflexivity|].
  apply (make_labels_class_range dataset_from_file 2 py_strip class_lines
           {| video := "game"; num_frames := 20;
              events := [ev 4 "pass"; ev 6 "shot"] |}).
  - reflexivity.
  - vm_compute. reflexivity.
Defined.

Lemma sum_Z_le_bound (l : list Z) (b : Z) :
  0 ≤ b → Forall (fun u => u ≤ b) l → sum_Z l ≤ Z.of_nat (length l) * b.
Proof.
  intros Hb. induction 1 as [|u l Hu _ IH]; [unfold sum_Z; cbn; lia|].
  rewrite sum_Z_cons. cbn [length]. lia.
Qed.

(** X15: with the class map of [get_classes] and
    [clip_len * number of lines <= 2 ^ 63], the sum of a label vector
    cannot wrap: [int(labels.sum() > 0)] is 1 exactly when some entry
    differs from the background 0, and 0 exactly when none does. *)
Theorem contains_event_of_get_classes (D : ActionSpotDataset)
    (strip : string → string) (lines : list string)
    (clip_label : Annotation) (start_frame : Z) (labels : list Z) :
  classes_dict D = get_classes strip lines →
  clip_len D * Z.of_nat (length lines) ≤ 2 ^ 63 →
  make_labels D clip_label start_frame = Ok labels →
  (contains_event_of labels = 1
   ↔ ∃ (i : nat) (v : Z), labels !! i = Some v ∧ v ≠ 0)
  ∧ (contains_event_of labels = 0
     ↔ ∀ (i : nat) (v : Z), labels !! i = Some v → v = 0).
Proof.
  intros Hclasses Hsize Hrun.
  assert (Hlen : Z.of_nat (length labels) = clip_len D
          ∧ ∀ u, u ∈ labels → 0 ≤ u ∧ (u ≠ 0 → u < Z.of_nat (length lines))).
  { unfold make_labels, np_zeros in Hrun.
    destruct (clip_len D <? 0) eqn:Hneg; [done|]. cbn in Hrun.
    apply for_each_write_event_Ok in Hrun as [Hlen Hin].
    rewrite length_replicate in Hlen. split; [lia|]. intros u Hu.
    destruct (Hin u Hu) as [Hzero|[->|(_ & e & _ & Hc & _)]].
    - apply elem_of_replicate in Hzero as [-> _]. lia.
    - lia.
    - rewrite Hclasses in Hc. apply get_classes_range in Hc. lia. }
  destruct Hlen as [Hlen Hrange].
  assert (Hpos : Forall (fun v => 0 ≤ v) labels).
  { apply Forall_forall. intros u Hu. by apply Hrange. }
  assert (Hsum : sum_Z labels ≤ int64_max).
  { set (b := Z.max 0 (Z.of_nat (length lines) - 1)).
    assert (Hb : Forall (fun u => u ≤ b) labels).
    { apply Forall_forall. intros u Hu. destruct (Hrange u Hu) as [H0 Hlt].
      destruct (decide (u = 0)) as [->|Hne]; [unfold b; lia|].
      specialize (Hlt Hne). unfold b. lia. }
    pose proof (sum_Z_le_bound labels b ltac:(unfold b; lia) Hb) as Hle.
    unfold int64_max. rewrite Hlen in Hle. unfold b in Hle.
    destruct labels as [|u0 rest]; [unfold sum_Z; cbn; lia|].
    cbn [length] in Hlen. nia. }
  unfold contains_event_of. rewrite (np_sum_no_overflow _ Hpos Hsum).
  pose proof (sum_Z_pos_iff _ Hpos) as Hiff.
  destruct (sum_Z labels >? 0) eqn:Hgt.
  - assert (Hex : ∃ (i : nat) (v : Z), labels !! i = Some v ∧ v ≠ 0)
      by (apply Hiff; lia).
    split; [tauto|]. split; [done|].
    intros Hall. destruct Hex as (i & v & Hi & Hv). by specialize (Hall i v Hi).
  - split.
    + split; [done|]. intros Hex. apply Hiff in Hex. lia.
    + split; [|done]. intros _ i v Hi. destruct (decide (v = 0)); [done|].
      assert (0 < sum_Z labels) by (apply Hiff; eauto). lia.
Qed.

Lemma contains_event_of_get_classes_witness :
  (contains_event_of [3; 3; 2; 2; 2; 2; 2; 0] = 1
   ↔ ∃ (i : nat) (v : Z), [3; 3; 2; 2; 2; 2; 2; 0] !! i = Some v ∧ v ≠ 0)
  ∧ (contains_event_of [3; 3; 2; 2; 2; 2; 2; 0] = 0
     ↔ ∀ (i : nat) (v : Z), [3; 3; 2; 2; 2; 2; 2; 0] !! i = Some v → v = 0).
Proof.
  apply (contains_event_of_get_classes dataset_from_file py_strip class_lines
           {| video := "game"; num_frames := 20;
              events := [ev 4 "pass"; ev 6 "shot"] |} 2).
  - reflexivity.
  - vm_compute. discriminate.
  - vm_compute. reflexivity.
Defined.

(** ** More on examples *)

Section MoreExamples.
Context {W Frames : Type} `{!Runtime W Frames}.
Implicit Types (D : ActionSpotDataset) (s : St (W := W))
  (ex : Example (Frames := Frames)).

(** A call of [get_example] that raises has not reached the frame
    reader. *)
Lemma get_example_Raise_calls D s e s1 :
  get_example D s = (Raise e, s1) → reader_calls s1 = reader_calls s.
Proof.
  unfold get_example, mbind, M_bind, lift, call_load_frames, mret, M_ret.
  destruct (get_sample D s) as [[[x start]|e0] s0] eqn:Hs.
  - destruct (make_labels D x start) as [labels|e1].
    + by destruct (load_frames _ _ _ _ _ _ _).
    + intros [= _ <-]. apply (get_sample_keeps_calls D _ _ _ Hs).
  - intros [= _ <-]. apply (get_sample_keeps_calls D _ _ _ Hs).
Qed.

(** X16: a call of [get_example] that returns has called the frame
    reader exactly once, and one that raises has not called it: the
    labels are built, and the class of every nearby event is looked up,
    before any frame is loaded. *)
Theorem get_example_reader_calls D s :
  reader_calls (get_example D s).2
  = match (get_example D s).1 with
    | Ok _ => S (reader_calls s)
    | Raise _ => reader_calls s
    end.
Proof.
  destruct (get_example D s) as [[ex|e] s1] eqn:Hrun; cbn [fst snd].
  - by apply get_example_Ok in Hrun as (_ & _ & _ & _ & _ & _ & ->).
  - by apply get_example_Raise_calls in Hrun.
Qed.

(** X17: [__getitem__] is still in its loop after [fuel] retries exactly
    when the first call of [get_example] and each of the [fuel] retries
    returned an example without frames: nothing but a frame reader that
    keeps failing keeps it from ending. *)
Theorem getitem_out_of_fuel_iff {I : Type} D (unused : I) (fuel : nat) :
  ∀ s,
    getitem fuel D unused s = None
    ↔ ∀ k, (k ≤ fuel)%nat →
        ∃ exk, (get_example D (after_attempts D k s)).1 = Ok exk
               ∧ example_frame exk = None.
Proof.
  induction fuel as [|fuel IH]; intros s.
  - unfold getitem. split.
    + intros Hnone k Hk. assert (k = 0%nat) as -> by lia. cbn.
      destruct (get_example D s) as [[ex|e] s0]; [|done]. cbn in *.
      destruct (example_frame ex) eqn:Hfr; [done|]. eauto.
    + intros Hall. destruct (Hall 0%nat) as (ex0 & Hex0 & Hfr); [lia|].
      cbn in Hex0. destruct (get_example D s) as [r s0]. cbn in Hex0. subst r.
      cbn. by rewrite Hfr.
  - split.
    + intros Hnone.
      destruct (get_example D s) as [[ex|e] s0] eqn:Hrun; cycle 1.
      { unfold getitem in Hnone. by rewrite Hrun in Hnone. }
      destruct (example_frame ex) eqn:Hfr.
      { unfold getitem in Hnone. rewrite Hrun in Hnone. cbn in Hnone.
        by rewrite Hfr in Hnone. }
      rewrite (getitem_retry_step D s unused fuel ex s0 Hrun Hfr) in Hnone.
      pose proof (proj1 (IH s0) Hnone) as Hrec. intros [|k] Hk.
      * cbn. rewrite Hrun. eauto.
      * cbn [after_attempts]. rewrite Hrun. apply Hrec. lia.
    + intros Hall. destruct (Hall 0%nat) as (ex0 & Hex0 & Hfr); [lia|].
      cbn in Hex0. destruct (get_example D s) as [r s0] eqn:Hrun.
      cbn in Hex0. subst r.
      rewrite (getitem_retry_step D s unused fuel ex0 s0 Hrun Hfr).
      apply (proj2 (IH s0)). intros k Hk. specialize (Hall (S k)).
      cbn [after_attempts] in Hall. rewrite Hrun in Hall. apply Hall. lia.
Qed.

(** X18: an exception raised in a retry is not caught: when the frame
    reader returns [None] in the first [n] runs of [get_example] and the
    next run raises, [__getitem__] ends with that exception, after [n]
    calls of the reader and without a further retry. *)
Theorem getitem_propagates_exception {I : Type} D (unused : I) (n : nat) :
  ∀ s (fuel : nat) e s1,
    (∀ k, (k < n)%nat →
       ∃ exk, (get_example D (after_attempts D k s)).1 = Ok exk
              ∧ example_frame exk = None) →
    get_example D (after_attempts D n s) = (Raise e, s1) →
    (n ≤ fuel)%nat →
    getitem fuel D unused s = Some (Raise e, s1)
    ∧ reader_calls s1 = (reader_calls s + n)%nat.
Proof.
  induction n as [|n IH]; intros s fuel e s1 Hfail Hraise Hfuel.
  - cbn in Hraise. split; [by apply getitem_Raise|].
    apply get_example_Raise_calls in Hraise. lia.
  - destruct fuel as [|fuel]; [lia|].
    destruct (Hfail 0%nat) as (ex0 & Hex0 & Hnone); [lia|]. cbn in Hex0.
    destruct (get_example D s) as [r0 s0] eqn:Hrun. cbn in Hex0. subst r0.
    rewrite (getitem_retry_step D s unused fuel ex0 s0 Hrun Hnone).
    cbn [after_attempts] in Hraise. rewrite Hrun in Hraise. cbn [snd] in Hraise.
    destruct (IH s0 fuel e s1) as [Hret Hcalls]; [|done|lia|].
    { intros k Hk. destruct (Hfail (S k)) as (exk & Hexk & Hnk); [lia|].
      cbn [after_attempts] in Hexk. rewrite Hrun in Hexk. eauto. }
    split; [done|].
    apply get_example_Ok in Hrun as (_ & _ & _ & _ & _ & _ & Hc). lia.
Qed.

(** X19: an event-biased clip carries a label where its event is: for
    a constructed dataset with a non-negative [dilate_len], whenever
    [sample_event] returns a video and a start frame and the events that
    are written have classes, the entry [(video_idx, frame_idx)] that its
    draw took from the index belongs to an event of that video, at that
    frame, which lies in the window; its [label_index] is a position of
    the clip, and the label vector holds there the class of an event of
    the video that is written there. *)
Theorem sample_event_labels_its_event
    (classes : gmap string Z) (labels : list Annotation)
    (cl dl : Z) (ie : bool) (st di : Z) (mx : bool) (np : Z) (rate : Q)
    D s (x : Annotation) (start : Z) s2 :
  init classes labels cl dl ie st di mx np rate = Ok D →
  (0 < rate)%Q → 0 ≤ di →
  sample_event D s = (Ok (x, start), s2) →
  known_in_window D start (events x) →
  ∃ (video_idx : nat) (frame_idx : Z) s1 (lbls : list Z)
    (drawn written : Event) (c : Z),
    choices (build_flat_labels labels) s = (Ok (video_idx, frame_idx), s1)
    ∧ labels !! video_idx = Some x
    ∧ drawn ∈ events x
    ∧ frame drawn = frame_idx
    ∧ start ≤ frame_idx < start + cl
    ∧ label_index_of D start drawn = (frame_idx - start) / st
    ∧ 0 ≤ label_index_of D start drawn < cl
    ∧ make_labels D x start = Ok lbls
    ∧ writes_to D start drawn (label_index_of D start drawn)
    ∧ written ∈ events x
    ∧ writes_to D start written (label_index_of D start drawn)
    ∧ classes !! label written = Some c
    ∧ lbls !! Z.to_nat (label_index_of D start drawn) = Some c.
Proof.
  intros Hinit Hrate Hdi Hsample Hknown.
  destruct (decide (0 < cl ∧ 0 < st ∧ 0 < dl ∧ 0 ≤ np)) as [Hv|Hv]; cycle 1.
  { destruct (init_invalid classes labels cl dl ie st di mx np rate) as [msg Hmsg];
      [lia|congruence]. }
  destruct Hv as (H1 & H2 & H3 & H4).
  destruct (init_valid classes labels cl dl ie st di mx np rate H1 H2 H3 H4)
    as (D' & HD' & Hcl & Hst & _ & Hnp & Hlabels & Hclasses & Hdil & _ & Hfl).
  assert (D' = D) as -> by congruence.
  apply Qgtb_true in Hrate. rewrite Hrate in Hfl.
  destruct (decide (build_flat_labels labels = [])) as [Hnil|Hne].
  { exfalso. unfold sample_event in Hsample. rewrite Hfl, Hnil in Hsample.
    destruct (choices_empty (A := nat * Z) s) as (s1 & Hs1 & _).
    unfold mbind in Hsample. by rewrite (bind_Raise _ _ _ _ _ Hs1) in Hsample. }
  destruct (choices_nonempty (build_flat_labels labels) s Hne)
    as (i & [video_idx frame_idx] & s1 & Hdraw & Hi & _).
  assert (Hin : (video_idx, frame_idx) ∈ build_flat_labels labels)
    by (apply list_elem_of_lookup; eauto).
  apply elem_of_build_flat_labels in Hin as (x' & drawn & Hx' & Hdrawn & Hfr & _).
  pose proof Hx' as Hx''. rewrite <- Hlabels in Hx''.
  rewrite (sample_event_unfold D _ video_idx frame_idx s s1 x' Hfl Hdraw Hx'')
    in Hsample.
  destruct (sample_event_start D (num_frames x') frame_idx s1)
    as [[start'|e] s2'] eqn:Hstart; [|done].
  destruct (start' <=? frame_idx) eqn:Hle; [|done].
  destruct (start' + clip_len D >? frame_idx) eqn:Hgt; [|done].
  injection Hsample as -> -> ->.
  set (li := label_index_of D start drawn).
  assert (Hdef : li = (frame_idx - start) / st).
  { unfold li, label_index_of. by rewrite Hfr, Hst. }
  assert (Hli : 0 ≤ li < cl).
  { rewrite Hdef. split.
    - apply Z.div_pos; lia.
    - apply Z.div_lt_upper_bound; [lia|]. nia. }
  assert (Hw : writes_to D start drawn li).
  { unfold writes_to, in_window. fold li. rewrite Hdil, Hcl. lia. }
  destruct (for_each_write_event D start ltac:(lia) (events x)
              (replicate (Z.to_nat (clip_len D)) 0) Hknown)
    as (lbls & Hrun & Hlen & Hget); [by rewrite length_replicate|].
  specialize (Hget li ltac:(lia)).
  destruct (last (filter (fun event => writes_to D start event li) (events x)))
    as [written|] eqn:Hlast; cycle 1.
  { exfalso. apply last_None in Hlast.
    by apply (filter_nil_not_elem_of _ _ drawn Hlast Hw). }
  apply last_Some_elem_of, list_elem_of_filter in Hlast as [Hww Hwin].
  destruct (Hknown written Hwin (proj1 Hww)) as (c & Hc & _).
  rewrite Hc in Hget. cbn in Hget.
  exists video_idx, frame_idx, s1, lbls, drawn, written, c.
  split; [done|]. split; [done|]. split; [done|]. split; [done|].
  split; [lia|]. split; [done|]. split; [done|].
  split.
  { unfold make_labels, np_zeros.
    assert ((clip_len D <? 0) = false) as -> by lia. exact Hrun. }
  rewrite <- Hclasses. done.
Qed.

End MoreExamples.

Lemma getitem_propagates_exception_witness :
  getitem 3 dataset_no_b tt (Stub.start [0%N; 9%N; 0%N; 2%N] 1)
  = Some (Raise (KeyError "b"),
          {| world := {| Stub.tape := []; Stub.failures_left := 0;
                         Stub.served := 1 |};
             reader_calls := 1 |})
  ∧ 1%nat = (0 + 1)%nat.
Proof.
  apply (getitem_propagates_exception dataset_no_b tt 1
           (Stub.start [0%N; 9%N; 0%N; 2%N] 1) 3).
  - intros [|k] Hk; [|lia]. eexists. split; reflexivity.
  - reflexivity.
  - lia.
Defined.

Lemma sample_event_labels_its_event_witness :
  ∃ (video_idx : nat) (frame_idx : Z) s1 (lbls : list Z)
    (drawn written : Event) (c : Z),
    choices (build_flat_labels [video_pair]) (Stub.start [0%N; 3%N] 0)
    = (Ok (video_idx, frame_idx), s1)
    ∧ [video_pair] !! video_idx = Some video_pair
    ∧ drawn ∈ events video_pair
    ∧ frame drawn = frame_idx
    ∧ 3 ≤ frame_idx < 3 + 8
    ∧ label_index_of (dataset classes_ab [video_pair] 8 1 2 0 (1 # 2)) 3 drawn
      = (frame_idx - 3) / 1
    ∧ 0 ≤ label_index_of (dataset classes_ab [video_pair] 8 1 2 0 (1 # 2)) 3 drawn
      < 8
    ∧ make_labels (dataset classes_ab [video_pair] 8 1 2 0 (1 # 2)) video_pair 3
      = Ok lbls
    ∧ writes_to (dataset classes_ab [video_pair] 8 1 2 0 (1 # 2)) 3 drawn
        (label_index_of (dataset classes_ab [video_pair] 8 1 2 0 (1 # 2)) 3 drawn)
    ∧ written ∈ events video_pair
    ∧ writes_to (dataset classes_ab [video_pair] 8 1 2 0 (1 # 2)) 3 written
        (label_index_of (dataset classes_ab [video_pair] 8 1 2 0 (1 # 2)) 3 drawn)
    ∧ classes_ab !! label written = Some c
    ∧ lbls !! Z.to_nat
                (label_index_of (dataset classes_ab [video_pair] 8 1 2 0 (1 # 2)) 3
                   drawn) = Some c.
Proof.
  apply (sample_event_labels_its_event classes_ab [video_pair] 8 5 true 1 2 false 0
           (1 # 2) (dataset classes_ab [video_pair] 8 1 2 0 (1 # 2))
           (Stub.start [0%N; 3%N] 0) video_pair 3 (Stub.start [] 0)).
  - reflexivity.
  - reflexivity.
  - lia.
  - reflexivity.
  - intros event Hin _. cbn in Hin.
    apply elem_of_cons in Hin as [->|Hin].
    { exists 1. split; reflexivity. }
    apply list_elem_of_singleton in Hin as ->.
    exists 2. split; reflexivity.
Defined.

Lemma sample_event_returns_with_stride_1_witness :
  ∃ start s2,
    sample_event (dataset classes_ab [video_pair] 8 1 2 0 (1 # 2))
      (Stub.start [0%N; 3%N] 0) = (Ok (video_pair, start), s2)
    ∧ start ≤ 4 < start + clip_len (dataset classes_ab [video_pair] 8 1 2 0 (1 # 2)).
Proof.
  apply (sample_event_returns_with_stride_1
           (dataset classes_ab [video_pair] 8 1 2 0 (1 # 2))
           [(0%nat, 4); (0%nat, 6)] 0 4 video_pair (Stub.start [0%N; 3%N] 0)
           (Stub.start [3%N] 0)).
  - cbn. lia.
  - reflexivity.
  - cbn. lia.
  - reflexivity.
  - reflexivity.
  - reflexivity.
  - lia.
Defined.

(** ** The event flag *)

(** An array of class indices below [n] that is short enough for its
    sum to stay below [2 ^ 63] has a positive 64-bit sum exactly when it
    has a non-zero entry. *)
Lemma contains_event_of_no_wrap (labels : list Z) (n : Z) :
  (∀ u, u ∈ labels → 0 ≤ u ∧ (u ≠ 0 → u < n)) →
  Z.of_nat (length labels) * n ≤ 2 ^ 63 →
  (contains_event_of labels = 1
   ↔ ∃ (i : nat) (v : Z), labels !! i = Some v ∧ v ≠ 0)
  ∧ (contains_event_of labels = 0
     ↔ ∀ (i : nat) (v : Z), labels !! i = Some v → v = 0).
Proof.
  intros Hrange Hsize.
  assert (Hpos : Forall (fun v => 0 ≤ v) labels).
  { apply Forall_forall. intros u Hu. by apply Hrange. }
  assert (Hsum : sum_Z labels ≤ int64_max).
  { set (b := Z.max 0 (n - 1)).
    assert (Hb : Forall (fun u => u ≤ b) labels).
    { apply Forall_forall. intros u Hu. destruct (Hrange u Hu) as [H0 Hlt].
      destruct (decide (u = 0)) as [->|Hne]; [unfold b; lia|].
      specialize (Hlt Hne). unfold b. lia. }
    pose proof (sum_Z_le_bound labels b ltac:(unfold b; lia) Hb) as Hle.
    unfold int64_max.
    destruct labels as [|u0 rest]; [unfold sum_Z; cbn; lia|].
    cbn [length] in Hle, Hsize.
    destruct (decide (n ≤ 1)) as [Hn|Hn].
    - assert (b = 0) as Hb0 by (unfold b; lia). rewrite Hb0 in Hle. lia.
    - assert (b = n - 1) as Hb1 by (unfold b; lia). rewrite Hb1 in Hle. nia. }
  unfold contains_event_of. rewrite (np_sum_no_overflow _ Hpos Hsum).
  pose proof (sum_Z_pos_iff _ Hpos) as Hiff.
  destruct (sum_Z labels >? 0) eqn:Hgt.
  - assert (Hex : ∃ (i : nat) (v : Z), labels !! i = Some v ∧ v ≠ 0)
      by (apply Hiff; lia).
    split; [tauto|]. split; [done|].
    intros Hall. destruct Hex as (i & v & Hi & Hv). by specialize (Hall i v Hi).
  - split.
    + split; [done|]. intros Hex. apply Hiff in Hex. lia.
    + split; [|done]. intros _ i v Hi. destruct (decide (v = 0)); [done|].
      assert (0 < sum_Z labels) by (apply Hiff; eauto). lia.
Qed.

Section EventFlag.
Context {W Frames : Type} `{!Runtime W Frames}.
Implicit Types (D : ActionSpotDataset) (s : St (W := W))
  (ex : Example (Frames := Frames)).

(** C9: with a class map whose indices lie in [[0, num_classes)] and a
    clip short enough for the 64-bit sum of its labels
    ([clip_len * num_classes <= 2 ^ 63]), every example that
    [__getitem__] returns has a label array of non-negative class
    indices, and its [contains_event] is 1 if and only if some entry of
    the label array differs from the background class 0, and 0
    otherwise. *)
Theorem contains_event_iff_nonbackground {I : Type}
    D s (unused : I) (fuel : nat) ex s1 (num_classes : Z) :
  getitem fuel D unused s = Some (Ok ex, s1) →
  map_Forall (fun _ c => 0 ≤ c < num_classes) (classes_dict D) →
  clip_len D * num_classes ≤ 2 ^ 63 →
  Forall (fun v => 0 ≤ v) (example_label ex)
  ∧ (contains_event ex = 1
     ↔ ∃ (i : nat) (v : Z), example_label ex !! i = Some v ∧ v ≠ 0)
  ∧ (contains_event ex = 0
     ↔ ∀ (i : nat) (v : Z), example_label ex !! i = Some v → v = 0).
Proof.
  intros Hret Hdense Hsize.
  apply getitem_returns in Hret as [_ [s' Hex]].
  apply get_example_Ok in Hex as (x & start & _ & _ & Hrun & -> & _).
  unfold make_labels, np_zeros in Hrun.
  destruct (clip_len D <? 0) eqn:Hneg; [done|]. cbn in Hrun.
  apply for_each_write_event_Ok in Hrun as [Hlen Hin].
  rewrite length_replicate in Hlen.
  assert (Hrange : ∀ u, u ∈ example_label ex →
            0 ≤ u ∧ (u ≠ 0 → u < num_classes)).
  { intros u Hu. destruct (Hin u Hu) as [Hzero|[->|(_ & e & _ & Hc & _)]].
    - apply elem_of_replicate in Hzero as [-> _]. lia.
    - lia.
    - specialize (Hdense _ _ Hc). cbn in Hdense. lia. }
  split.
  { apply Forall_forall. intros u Hu. by apply Hrange. }
  apply (contains_event_of_no_wrap _ num_classes Hrange).
  rewrite Hlen. lia.
Qed.

End EventFlag.

Lemma contains_event_iff_nonbackground_witness :
  Forall (fun v => 0 ≤ v) [2; 2; 2; 2; 2; 0; 0; 0]
  ∧ (1 = 1 ↔ ∃ (i : nat) (v : Z),
               [2; 2; 2; 2; 2; 0; 0; 0] !! i = Some v ∧ v ≠ 0)
  ∧ (1 = 0 ↔ ∀ (i : nat) (v : Z),
               [2; 2; 2; 2; 2; 0; 0; 0] !! i = Some v → v = 0).
Proof.
  apply (contains_event_iff_nonbackground dataset_pair
           (Stub.start [0%N; 2%N; 0%N; 3%N; 0%N; 4%N] 2) tt 2
           {| example_frame := Some 3%nat;
              example_label := [2; 2; 2; 2; 2; 0; 0; 0];
              contains_event := 1 |}
           {| world := {| Stub.tape := []; Stub.failures_left := 0;
                          Stub.served := 3 |};
              reader_calls := 3 |} 3).
  - reflexivity.
  - apply map_Forall_insert_2; [lia|].
    apply map_Forall_insert_2; [lia|]. apply map_Forall_empty.
  - vm_compute. discriminate.
Defined.
